(** * add-vendor-to-catalog: the vendor join of a product catalog

    A shallow embedding of [scripts/add-vendor-to-catalog.py]: the loader
    [load_vendor_map] (lines 12-26) and the script body [main] (lines 28-67),
    followed by the properties of the join, of the loader and of the
    backup-then-write sequence. *)

From Stdlib Require Import ZArith NArith Ascii String Strings.Byte List Lia DecimalString.
From Stdlib Require Import DecimalPos DecimalZ.
From stdpp Require Import gmap strings list fin_maps.

Local Open Scope string_scope.
Local Open Scope list_scope.
Set Warnings "-register-all".

(** ** Python values *)

(** Exceptions the script can end with.  Nothing is caught in the source, so
    the first exception raised ends the run. *)
Inductive exn :=
| FileNotFoundError (path : string)   (* open / copy2 of a missing file *)
| OSError (path : string)             (* any other failure of the file system *)
| DecodeError                         (* UnicodeDecodeError, csv.Error, json.JSONDecodeError *)
| AttributeError                      (* method of a value that has none of that name *)
| KeyError (key : string)
| TypeError.

Inductive result (A : Type) :=
| Ok (a : A)
| Raise (e : exn).
Arguments Ok {A} a.
Arguments Raise {A} e.

#[global] Instance result_ret : MRet result := fun A a => Ok a.
#[global] Instance result_bind : MBind result := fun A B k r =>
  match r with
  | Ok a => k a
  | Raise e => Raise e
  end.

(** What [json.load] and [csv.DictReader] hand to the script: [None], booleans,
    integers, floats (never inspected here, kept as their binary64 bit
    pattern), strings, lists and dicts with string keys.  A dict is the list
    of its items in insertion order, which is the order [json.dump] writes;
    the keys of a dict that Python builds are distinct, and [dict_get] and
    [dict_set] below agree on the first item of a key in any case. *)
Inductive pyval :=
| PNone
| PBool (b : bool)
| PInt (z : Z)
| PFloat (bits : Z)
| PStr (s : string)
| PList (items : list pyval)
| PDict (items : list (string * pyval)).

Definition pydict := list (string * pyval).

(** [d.get(key)]: the value of the first item with that key. *)
Fixpoint dict_get (key : string) (d : pydict) : option pyval :=
  match d with
  | [] => None
  | (k, v) :: rest => if String.eqb k key then Some v else dict_get key rest
  end.

(** [d[key] = value]: an existing item keeps its place and takes the new
    value, a new key goes to the end. *)
Fixpoint dict_set (key : string) (value : pyval) (d : pydict) : pydict :=
  match d with
  | [] => [(key, value)]
  | (k, v) :: rest =>
      if String.eqb k key then (k, value) :: rest
      else (k, v) :: dict_set key value rest
  end.

(** [obj.get(key, default)]: only dicts have a [get] among the values above. *)
Definition py_get (obj : pyval) (key : string) (default : pyval) : result pyval :=
  match obj with
  | PDict d => Ok (match dict_get key d with Some v => v | None => default end)
  | _ => Raise AttributeError
  end.

(** [obj[key] = value] *)
Definition py_setitem (obj : pyval) (key : string) (value : pyval) : result pyval :=
  match obj with
  | PDict d => Ok (PDict (dict_set key value d))
  | _ => Raise TypeError
  end.

(** ** Strings

    A [str] is the sequence of its code points, here the code points below
    256, one [ascii] each.  [str.lower] and [str.strip] are Python's on that
    range. *)

(** Code points with a lowercase counterpart: A-Z, and U+00C0-U+00DE without
    the multiplication sign U+00D7.  The counterpart is 32 further. *)
Definition is_upper (c : ascii) : bool :=
  let n := N_of_ascii c in
  ((65 <=? n) && (n <=? 90) || (192 <=? n) && (n <=? 222) && negb (n =? 215))%N.

Definition lower_char (c : ascii) : ascii :=
  if is_upper c then ascii_of_N (N_of_ascii c + 32) else c.

Fixpoint lower (s : string) : string :=
  match s with
  | EmptyString => EmptyString
  | String c rest => String (lower_char c) (lower rest)
  end.

(** [str.isspace] on one code point: TAB to CR, FS to US, space, NEL, NBSP. *)
Definition isspace (c : ascii) : bool :=
  let n := N_of_ascii c in
  ((9 <=? n) && (n <=? 13) || (28 <=? n) && (n <=? 32) || (n =? 133) || (n =? 160))%N.

Fixpoint lstrip (s : string) : string :=
  match s with
  | EmptyString => EmptyString
  | String c rest => if isspace c then lstrip rest else s
  end.

(** Drops trailing whitespace: a character is kept when it is not whitespace
    or when something is kept after it. *)
Fixpoint rstrip (s : string) : string :=
  match s with
  | EmptyString => EmptyString
  | String c rest =>
      match rstrip rest with
      | EmptyString => if isspace c then EmptyString else String c EmptyString
      | kept => String c kept
      end
  end.

Definition strip (s : string) : string := rstrip (lstrip s).

(** Truth value of a [str]: false exactly for the empty string. *)
Definition truthy (s : string) : bool :=
  match s with
  | EmptyString => false
  | String _ _ => true
  end.

(** [v.lower()] and [v.strip()] on a value that may not be a [str]. *)
Definition py_lower (v : pyval) : result string :=
  match v with
  | PStr s => Ok (lower s)
  | _ => Raise AttributeError
  end.

Definition py_strip (v : pyval) : result string :=
  match v with
  | PStr s => Ok (strip s)
  | _ => Raise AttributeError
  end.


(** A string of whitespace throughout. *)
Definition whitespace_only (s : string) : bool :=
  forallb isspace (list_ascii_of_string s).

(** A string that does not begin with whitespace. *)
Definition starts_clean (s : string) : Prop :=
  match s with
  | EmptyString => True
  | String c _ => isspace c = false
  end.

(** ** csv.DictReader

    [csv.reader] yields each record of the file as a list of fields.
    [csv.DictReader] (Python's standard library) takes the first record as
    the field names, passes over empty records and turns every other record
    into a dict: [dict(zip(fieldnames, row))], and then, for a record with
    fewer fields than names, each remaining name is set to [restval], which
    is [None] unless given; the script does not give it.  The surplus fields
    of a longer record go under the key [None], which no [get] with a string
    key reads, so they are left out here. *)
Definition restval : pyval := PNone.

Definition dict_of_zip (fieldnames row : list string) : pydict :=
  foldl (fun d kv => dict_set kv.1 (PStr kv.2) d) [] (zip fieldnames row).

Definition DictReader_row (fieldnames row : list string) : pydict :=
  foldl (fun d key => dict_set key restval d)
        (dict_of_zip fieldnames row)
        (drop (length row) fieldnames).

Definition nonblank (row : list string) : bool :=
  match row with
  | [] => false
  | _ :: _ => true
  end.

Definition DictReader (records : list (list string)) : list pydict :=
  match records with
  | [] => []
  | fieldnames :: data => map (DictReader_row fieldnames) (List.filter nonblank data)
  end.

(** ** load_vendor_map (lines 12-26) *)

(** Line 19: [row.get('Handle', '').lower().strip()]. *)
Definition row_handle (row : pydict) : result string :=
  h ← py_get (PDict row) "Handle" (PStr "");
  l ← py_lower h;
  py_strip (PStr l).

(** Line 20: [row.get('Vendor', '').strip()]. *)
Definition row_vendor (row : pydict) : result string :=
  v ← py_get (PDict row) "Vendor" (PStr "");
  py_strip v.

(** Lines 19-23, the body of the loop for one row. *)
Definition load_row (vendor_map : gmap string string) (row : pydict)
  : result (gmap string string) :=
  handle ← row_handle row;
  vendor ← row_vendor row;
  if truthy handle && truthy vendor
  then Ok (<[handle := vendor]> vendor_map)
  else Ok vendor_map.

(** Lines 18-23, the loop over the reader. *)
Fixpoint load_rows (reader : list pydict) (vendor_map : gmap string string)
  : result (gmap string string) :=
  match reader with
  | [] => Ok vendor_map
  | row :: rest =>
      vendor_map' ← load_row vendor_map row;
      load_rows rest vendor_map'
  end.

(** Lines 14-26 on the records of the file: [vendor_map = {}], the loop,
    [return vendor_map]. *)
Definition load_records (records : list (list string)) : result (gmap string string) :=
  load_rows (DictReader records) ∅.

(** A row whose Handle and Vendor are strings where present. *)
Definition row_ok (row : pydict) : Prop :=
  ∃ h v, row_handle row = Ok h ∧ row_vendor row = Ok v.

(** ** The update loop of main (lines 40-53) *)

(** Line 45: [product.get('handle', '').lower().strip()]. *)
Definition product_handle (product : pyval) : result string :=
  h ← py_get product "handle" (PStr "");
  l ← py_lower h;
  py_strip (PStr l).

(** [key in vendor_map] and [vendor_map[key]]. *)
Definition contains (vendor_map : gmap string string) (key : string) : bool :=
  bool_decide (is_Some (vendor_map !! key)).

Definition getitem (vendor_map : gmap string string) (key : string) : result string :=
  match vendor_map !! key with
  | Some v => Ok v
  | None => Raise (KeyError key)
  end.

(** Lines 45-51 for one product: the product after the step, and whether the
    first branch ran ([updated_count += 1]) or the second
    ([not_found_count += 1]). *)
Definition add_vendor (vendor_map : gmap string string) (product : pyval)
  : result (pyval * bool) :=
  handle ← product_handle product;
  if truthy handle && contains vendor_map handle
  then
    vendor ← getitem vendor_map handle;
    product' ← py_setitem product "vendor" (PStr vendor);
    Ok (product', true)
  else Ok (product, false).

(** Lines 44-51: the loop, from the counters as they stand.  The products are
    dicts mutated in place; [json.load] builds a tree in which no dict or
    list is shared, so the list after the loop is the list of the products
    after their steps. *)
Fixpoint update_products (vendor_map : gmap string string) (products : list pyval)
    (updated_count not_found_count : nat) : result (list pyval * nat * nat) :=
  match products with
  | [] => Ok ([], updated_count, not_found_count)
  | product :: rest =>
      '(product', hit) ← add_vendor vendor_map product;
      '(rest', u, n) ← update_products vendor_map rest
                           (if hit : bool then S updated_count else updated_count)
                           (if hit : bool then not_found_count else S not_found_count);
      Ok (product' :: rest', u, n)
  end.

(** What [for product in v] runs over: the elements of a list, the keys of a
    dict, the characters of a string; nothing else above is iterable. *)
Fixpoint chars (s : string) : list pyval :=
  match s with
  | EmptyString => []
  | String c rest => PStr (String c EmptyString) :: chars rest
  end.

Definition py_iter (v : pyval) : result (list pyval) :=
  match v with
  | PList items => Ok items
  | PDict d => Ok (map (fun kv => PStr kv.1) d)
  | PStr s => Ok (chars s)
  | _ => Raise TypeError
  end.

(** [catalog['products']] *)
Definition catalog_products (catalog : pyval) : result pyval :=
  match catalog with
  | PDict top =>
      match dict_get "products" top with
      | Some v => Ok v
      | None => Raise (KeyError "products")
      end
  | _ => Raise TypeError
  end.

(** Lines 40-51 on the loaded document: the document after the loop and the
    two counters.  Only the elements of a list are objects of the document;
    the keys of a dict and the characters of a string are strings, on which
    the first step of the loop already raises. *)
Definition update_catalog (vendor_map : gmap string string) (catalog : pyval)
  : result (pyval * nat * nat) :=
  products ← catalog_products catalog;
  items ← py_iter products;
  '(items', updated_count, not_found_count) ← update_products vendor_map items 0 0;
  match catalog, products with
  | PDict top, PList _ =>
      Ok (PDict (dict_set "products" (PList items') top), updated_count, not_found_count)
  | _, _ => Ok (catalog, updated_count, not_found_count)
  end.

(** A product as the data model has it: an object whose handle, when there
    is one, is a string. *)
Definition product_ok (product : pyval) : Prop :=
  ∃ d, product = PDict d ∧
       (dict_get "handle" d = None ∨ ∃ s, dict_get "handle" d = Some (PStr s)).

(** A catalog as the data model has it: an object whose [products] is a list
    of such products. *)
Definition well_formed (catalog : pyval) (products : list pyval) : Prop :=
  ∃ top, catalog = PDict top ∧
         dict_get "products" top = Some (PList products) ∧
         Forall product_ok products.

(** A product without a handle, or whose handle is whitespace throughout. *)
Definition blank_handle (product : pyval) : Prop :=
  ∃ d, product = PDict d ∧
       (dict_get "handle" d = None ∨
        ∃ s, dict_get "handle" d = Some (PStr s) ∧ whitespace_only s = true).

(** Whether the step of the loop takes its first branch on a product. *)
Definition hit (vendor_map : gmap string string) (product : pyval) : bool :=
  match add_vendor vendor_map product with
  | Ok (_, b) => b
  | Raise _ => false
  end.

(** ** Files and the run

    The file system maps a path to a file: its bytes and the metadata that
    [shutil.copy2] carries over (permission bits and modification time).
    Whether the copy and the write go through is the environment's choice:
    either can be refused before the target is touched, or break off after a
    prefix of the bytes has reached it. *)
Record file := File { data : list byte; mode : N; mtime : Z }.

Inductive outcome :=
| Done
| Denied              (* raised before the target is opened *)
| Torn (n : nat).     (* raised after [n] bytes reached the target *)

Record environ := Environ {
  now : Z;                   (* [int(datetime.now().timestamp())] *)
  create_mode : N;           (* permission bits of a newly created file *)
  copy_outcome : outcome;    (* of [shutil.copy2] *)
  write_outcome : outcome    (* of [open(.., 'w')] with [json.dump] *)
}.

(** What the run did to the file system, in order. *)
Inductive event :=
| Copy (src dst : string) (o : outcome)
| Write (path : string) (o : outcome).

Record world := World { fs : gmap string file; trace : list event }.

Definition io (A : Type) : Type := world -> result A * world.

#[global] Instance io_ret : MRet io := fun A a w => (Ok a, w).
#[global] Instance io_bind : MBind io := fun A B k m w =>
  match m w with
  | (Ok a, w') => k a w'
  | (Raise e, w') => (Raise e, w')
  end.

Definition lift {A} (r : result A) : io A := fun w => (r, w).

(** [open(path, 'r')] and reading the file to its end. *)
Definition read_file (path : string) : io (list byte) := fun w =>
  match fs w !! path with
  | Some f => (Ok (data f), w)
  | None => (Raise (FileNotFoundError path), w)
  end.

(** The permission bits a file written at [path] ends with: its own when it
    exists already, those of a new file otherwise. *)
Definition mode_at (env : environ) (w : world) (path : string) : N :=
  match fs w !! path with
  | Some f => mode f
  | None => create_mode env
  end.

(** [shutil.copy2(src, dst)]: the bytes, then the metadata. *)
Definition copy2 (env : environ) (src dst : string) : io unit := fun w =>
  match fs w !! src with
  | None => (Raise (FileNotFoundError src), w)
  | Some f =>
      let log := trace w ++ [Copy src dst (copy_outcome env)] in
      match copy_outcome env with
      | Done => (Ok tt, World (<[dst := f]> (fs w)) log)
      | Denied => (Raise (OSError dst), World (fs w) log)
      | Torn n =>
          (Raise (OSError dst),
           World (<[dst := File (take n (data f)) (mode_at env w dst) (now env)]> (fs w)) log)
      end
  end.

(** [with open(path, 'w') as f: json.dump(.., f, indent=2)], on the text
    that [json.dump] produces. *)
Definition write_file (env : environ) (path : string) (text : list byte) : io unit := fun w =>
  let log := trace w ++ [Write path (write_outcome env)] in
  match write_outcome env with
  | Done => (Ok tt, World (<[path := File text (mode_at env w path) (now env)]> (fs w)) log)
  | Denied => (Raise (OSError path), World (fs w) log)
  | Torn n =>
      (Raise (OSError path),
       World (<[path := File (take n text) (mode_at env w path) (now env)]> (fs w)) log)
  end.

(** Lines 30-31 and 60. *)
Definition csv_path : string := "Products.csv".
Definition catalog_path : string := "valid_image_catalog.json".

Definition backup_path (env : environ) : string :=
  catalog_path +:+ ".backup-" +:+ NilZero.string_of_int (Z.to_int (now env)).

Section Script.

(** The parsers and the printer of Python's standard library, which the
    script calls and does not define.  [csv_reader] stands for decoding
    the file as utf-8-sig and splitting it into records: the records it
    yields and, when it stops on an error, that error.  [json_load] and
    [json_dump] stand for [json.load] and [json.dump(.., indent=2)]. *)
Variable csv_reader : list byte -> list (list string) * option exn.
Variable json_load : list byte -> result pyval.
Variable json_dump : pyval -> list byte.

(** Lines 12-26. *)
Definition load_vendor_map (csv_path : string) : io (gmap string string) :=
  raw ← read_file csv_path;
  vendor_map ← lift (load_records (csv_reader raw).1);
  match (csv_reader raw).2 with
  | Some e => lift (Raise e)
  | None => mret vendor_map
  end.

(** Lines 28-67.  The run returns the two counters it reports. *)
Definition main (env : environ) : io (nat * nat) :=
  vendor_map ← load_vendor_map csv_path;
  raw ← read_file catalog_path;
  catalog ← lift (json_load raw);
  '(catalog', updated_count, not_found_count) ← lift (update_catalog vendor_map catalog);
  _ ← copy2 env catalog_path (backup_path env);
  _ ← write_file env catalog_path (json_dump catalog');
  mret (updated_count, not_found_count).

End Script.

(** A run from a file system on which nothing has been done yet. *)
Definition run csv_reader json_load json_dump (env : environ) (files : gmap string file)
  : result (nat * nat) * world :=
  main csv_reader json_load json_dump env (World files []).

(** ** The claims that fail, as worded *)

(** The claim on duplicates as the specification words it: when several rows
    share a normalized handle, the map sends it to the vendor of the last of
    them. *)
Definition last_occurrence_wins (records : list (list string)) : Prop :=
  ∀ before row after h v,
    DictReader records = before ++ row :: after →
    row_handle row = Ok h → row_vendor row = Ok v →
    (∃ r, r ∈ before ∧ row_handle r = Ok h) →
    Forall (fun r => row_handle r ≠ Ok h) after →
    ∃ vendor_map, load_records records = Ok vendor_map ∧ vendor_map !! h = Some v.

(** The claim on malformed tables as the specification words it: a file that
    is there and in which the reader finds no header row makes the loader
    fail. *)
Definition malformed_is_rejected
    (csv_reader : list byte -> list (list string) * option exn) : Prop :=
  ∀ path w f,
    fs w !! path = Some f →
    (csv_reader (data f)).1 = [] →
    ∃ e, (load_vendor_map csv_reader path w).1 = Raise e.

(** ** An environment for the examples

    Stand-ins for the standard library on the files of the examples: the
    reader and the parser know the example files (and the empty file), the
    printer knows the example document after the join; each agrees with
    Python there, and gives up on anything else. *)
Definition nl : string := String (ascii_of_nat 10) "".
Definition q (s : string) : string :=
  String (ascii_of_nat 34) s +:+ String (ascii_of_nat 34) "".

Definition example_csv : list byte :=
  list_byte_of_string ("Handle,Vendor" +:+ nl +:+ "hat-001,Acme" +:+ nl).

Definition example_json : list byte :=
  list_byte_of_string
    ("{" +:+ q "products" +:+ ": [{" +:+ q "handle" +:+ ": " +:+ q "Hat-001" +:+ ", "
         +:+ q "title" +:+ ": " +:+ q "Red Hat" +:+ "}]}").

Definition example_catalog : pyval :=
  PDict [("products", PList [PDict [("handle", PStr "Hat-001"); ("title", PStr "Red Hat")]])].

(** A second document: three products, one with a vendor already, one with a
    blank handle, one without a handle, between two other top-level fields. *)
Definition example_store_products : list pyval :=
  [PDict [("handle", PStr " HAT-001 "); ("vendor", PStr "Old"); ("price", PInt 12)];
   PDict [("handle", PStr "   "); ("vendor", PStr "Kept")];
   PDict [("title", PStr "No handle")]].

Definition example_store : pyval :=
  PDict [("version", PInt 3);
         ("products", PList example_store_products);
         ("source", PStr "shop")].

Definition example_json_out : list byte :=
  list_byte_of_string
    ("{" +:+ nl +:+
     "  " +:+ q "products" +:+ ": [" +:+ nl +:+
     "    {" +:+ nl +:+
     "      " +:+ q "handle" +:+ ": " +:+ q "Hat-001" +:+ "," +:+ nl +:+
     "      " +:+ q "title" +:+ ": " +:+ q "Red Hat" +:+ "," +:+ nl +:+
     "      " +:+ q "vendor" +:+ ": " +:+ q "Acme" +:+ nl +:+
     "    }" +:+ nl +:+
     "  ]" +:+ nl +:+
     "}").

Definition same_bytes (a b : list byte) : bool :=
  String.eqb (string_of_list_byte a) (string_of_list_byte b).

Definition example_csv_reader (raw : list byte) : list (list string) * option exn :=
  if same_bytes raw example_csv then ([["Handle"; "Vendor"]; ["hat-001"; "Acme"]], None)
  else if same_bytes raw [] then ([], None)
  else ([], Some DecodeError).

Definition example_json_load (raw : list byte) : result pyval :=
  if same_bytes raw example_json then Ok example_catalog else Raise DecodeError.

Definition example_json_dump (doc : pyval) : list byte :=
  match doc with
  | PDict [("products",
            PList [PDict [("handle", PStr "Hat-001"); ("title", PStr "Red Hat");
                          ("vendor", PStr "Acme")]])] => example_json_out
  | _ => []
  end.

Definition example_fs : gmap string file :=
  {[ csv_path := File example_csv 420 1699990000;
     catalog_path := File example_json 420 1699990001 ]}.

Definition example_env (copy write : outcome) : environ :=
  Environ 1700000000 420 copy write.

(** ** The lines printed in the loop (lines 52-53)

    The loop also prints, for each of the first five products it does not
    find, a line made of [product.get('title')] and the normalized handle.
    A line is kept here as these two values.  *)

(** Lines 44-53: the loop with the lines it prints, in order. *)
Fixpoint update_products_diag (vendor_map : gmap string string) (products : list pyval)
    (updated_count not_found_count : nat)
  : result (list pyval * nat * nat * list (pyval * string)) :=
  match products with
  | [] => Ok ([], updated_count, not_found_count, [])
  | product :: rest =>
      handle ← product_handle product;
      '(product', hit) ← add_vendor vendor_map product;
      if hit : bool then
        '(rest', u, n, lines) ← update_products_diag vendor_map rest
                                   (S updated_count) not_found_count;
        Ok (product' :: rest', u, n, lines)
      else
        line ← (if (S not_found_count <=? 5)%nat
                then title ← py_get product "title" PNone; Ok [(title, handle)]
                else Ok []);
        '(rest', u, n, lines) ← update_products_diag vendor_map rest
                                   updated_count (S not_found_count);
        Ok (product' :: rest', u, n, line ++ lines)
  end.

(** What a line shows of a product: [product.get('title')] and the
    normalized handle. *)
Definition line_of (product : pyval) : pyval * string :=
  (match product with
   | PDict d => match dict_get "title" d with Some v => v | None => PNone end
   | _ => PNone
   end,
   match product_handle product with Ok h => h | Raise _ => "" end).

(** The lines of the products that the step does not find. *)
Definition missed (vendor_map : gmap string string) (products : list pyval)
  : list (pyval * string) :=
  map line_of (List.filter (fun p => negb (hit vendor_map p)) products).

(** ** The first half of main (lines 33-51)

    Loading the map, reading the catalog and running the loop, before any
    file is written. *)
Definition prepare (csv_reader : list byte -> list (list string) * option exn)
    (json_load : list byte -> result pyval) : io (pyval * nat * nat) :=
  vendor_map ← load_vendor_map csv_reader csv_path;
  raw ← read_file catalog_path;
  catalog ← lift (json_load raw);
  lift (update_catalog vendor_map catalog).

(** ** A parser for the examples that also knows the written file *)
Definition example_catalog_out : pyval :=
  PDict [("products",
          PList [PDict [("handle", PStr "Hat-001"); ("title", PStr "Red Hat");
                        ("vendor", PStr "Acme")]])].

Definition example_json_load_again (raw : list byte) : result pyval :=
  if same_bytes raw example_json_out then Ok example_catalog_out
  else example_json_load raw.

(** A minute after [example_env], with a copy and a write that go through. *)
Definition example_later : environ := Environ 1700000060 420 Done Done.

(** The example files without the catalog. *)
Definition example_fs_no_catalog : gmap string file :=
  {[ csv_path := File example_csv 420 1699990000 ]}.

(** ** The written fields, as the specification words the claim

    The specification has every field other than [vendor] byte-identical
    between the catalog file and the file written over it.  A field stands
    in the printed file as its key in quotes, a colon, a space and the text
    of its value. *)
Definition field_text (key value : string) : list byte :=
  list_byte_of_string (q key +:+ ": " +:+ value).

Fixpoint starts_with (part whole : list byte) : bool :=
  match part, whole with
  | [], _ => true
  | _ :: _, [] => false
  | x :: part', y :: whole' => Byte.eqb x y && starts_with part' whole'
  end.

Fixpoint occurs (part whole : list byte) : bool :=
  starts_with part whole ||
  match whole with
  | [] => false
  | _ :: rest => occurs part rest
  end.

(** A field of the catalog file, other than [vendor] and [products], is in
    the file that a run which ends well has written, with the same bytes. *)
Definition written_fields_identical
    (csv_reader : list byte -> list (list string) * option exn)
    (json_load : list byte -> result pyval)
    (json_dump : pyval -> list byte) : Prop :=
  ∀ env files counts w' f g key value,
    run csv_reader json_load json_dump env files = (Ok counts, w') →
    files !! catalog_path = Some f →
    fs w' !! catalog_path = Some g →
    key ≠ "vendor" → key ≠ "products" →
    occurs (field_text key value) (data f) = true →
    occurs (field_text key value) (data g) = true.

(** A catalog file with no product and a rate written with two decimals:
    [json.load] reads the float 1.5 (kept as its bits), and
    [json.dump(.., indent=2)] prints it in the shortest form. *)
Definition example_rate_json : list byte :=
  list_byte_of_string ("{" +:+ q "products" +:+ ": [], " +:+ q "rate" +:+ ": 1.50}").

Definition example_rate_doc : pyval :=
  PDict [("products", PList []); ("rate", PFloat 4609434218613702656)].

Definition example_rate_out : list byte :=
  list_byte_of_string
    ("{" +:+ nl +:+
     "  " +:+ q "products" +:+ ": []," +:+ nl +:+
     "  " +:+ q "rate" +:+ ": 1.5" +:+ nl +:+
     "}").

Definition example_rate_load (raw : list byte) : result pyval :=
  if same_bytes raw example_rate_json then Ok example_rate_doc else Raise DecodeError.

Definition example_rate_dump (doc : pyval) : list byte :=
  match doc with
  | PDict [("products", PList []); ("rate", PFloat 4609434218613702656)] => example_rate_out
  | _ => []
  end.

Definition example_rate_fs : gmap string file :=
  {[ csv_path := File example_csv 420 1699990000;
     catalog_path := File example_rate_json 420 1699990001 ]}.

(** ** The script with its console

    Every [print] of the script, in the order of the source.  A message is
    kept as the values its text is made of.  A [print] raises
    UnicodeEncodeError when the console cannot encode the text (a console
    without the signs of the fixed messages, a title or a handle with a lone
    surrogate); which messages the console takes is the environment's. *)
Inductive message :=
| Loading                                     (* line 33 *)
| Loaded (count : nat)                        (* line 25 *)
| Reading                                     (* line 36 *)
| Adding                                      (* line 43 *)
| NoVendor (title : pyval) (handle : string)  (* line 53 *)
| ResultsHeader                               (* line 55 *)
| Updated (count : nat)                       (* line 56 *)
| NotFound (count : nat)                      (* line 57 *)
| BackupCreated (name : string)               (* line 62 *)
| Written.                                    (* line 67 *)

Inductive raised :=
| Exn (e : exn)
| UnicodeEncodeError (m : message).

Inductive ended (A : Type) :=
| Returned (a : A)
| Raised (r : raised).
Arguments Returned {A} a.
Arguments Raised {A} r.

(** The state of a run with its console: the files with what was done to
    them, and the messages printed so far. *)
Definition cio (A : Type) : Type :=
  world * list message -> ended A * (world * list message).

#[global] Instance cio_ret : MRet cio := fun A a s => (Returned a, s).
#[global] Instance cio_bind : MBind cio := fun A B k m s =>
  match m s with
  | (Returned a, s') => k a s'
  | (Raised r, s') => (Raised r, s')
  end.

(** [print(..)] *)
Definition print (console : message -> bool) (m : message) : cio unit := fun s =>
  if console m then (Returned tt, (s.1, s.2 ++ [m]))
  else (Raised (UnicodeEncodeError m), s).

(** A step that prints nothing. *)
Definition silent {A} (step : io A) : cio A := fun s =>
  match step s.1 with
  | (Ok a, w') => (Returned a, (w', s.2))
  | (Raise e, w') => (Raised (Exn e), (w', s.2))
  end.

Definition line_message (line : pyval * string) : message := NoVendor line.1 line.2.

(** Lines 12-26 with the print of line 25. *)
Definition load_vendor_map_print (console : message -> bool)
    (csv_reader : list byte -> list (list string) * option exn) (csv_path : string)
  : cio (gmap string string) :=
  vendor_map ← silent (load_vendor_map csv_reader csv_path);
  _ ← print console (Loaded (size vendor_map));
  mret vendor_map.

(** Lines 44-53 with the print of line 53. *)
Fixpoint update_products_print (console : message -> bool)
    (vendor_map : gmap string string) (products : list pyval)
    (updated_count not_found_count : nat) : cio (list pyval * nat * nat) :=
  match products with
  | [] => mret ([], updated_count, not_found_count)
  | product :: rest =>
      handle ← silent (lift (product_handle product));
      '(product', hit) ← silent (lift (add_vendor vendor_map product));
      if hit : bool then
        '(rest', u, n) ← update_products_print console vendor_map rest
                            (S updated_count) not_found_count;
        mret (product' :: rest', u, n)
      else
        _ ← (if (S not_found_count <=? 5)%nat
             then title ← silent (lift (py_get product "title" PNone));
                  print console (NoVendor title handle)
             else mret tt);
        '(rest', u, n) ← update_products_print console vendor_map rest
                            updated_count (S not_found_count);
        mret (product' :: rest', u, n)
  end.

(** Lines 40-53 on the loaded document. *)
Definition update_catalog_print (console : message -> bool)
    (vendor_map : gmap string string) (catalog : pyval) : cio (pyval * nat * nat) :=
  products ← silent (lift (catalog_products catalog));
  items ← silent (lift (py_iter products));
  '(items', updated_count, not_found_count) ←
    update_products_print console vendor_map items 0 0;
  match catalog, products with
  | PDict top, PList _ =>
      mret (PDict (dict_set "products" (PList items') top), updated_count, not_found_count)
  | _, _ => mret (catalog, updated_count, not_found_count)
  end.

(** Lines 28-67 with every print. *)
Definition main_print (console : message -> bool)
    (csv_reader : list byte -> list (list string) * option exn)
    (json_load : list byte -> result pyval)
    (json_dump : pyval -> list byte) (env : environ) : cio unit :=
  _ ← print console Loading;
  vendor_map ← load_vendor_map_print console csv_reader csv_path;
  _ ← print console Reading;
  raw ← silent (read_file catalog_path);
  catalog ← silent (lift (json_load raw));
  _ ← print console Adding;
  '(catalog', updated_count, not_found_count) ←
    update_catalog_print console vendor_map catalog;
  _ ← print console ResultsHeader;
  _ ← print console (Updated updated_count);
  _ ← print console (NotFound not_found_count);
  _ ← silent (copy2 env catalog_path (backup_path env));
  _ ← print console (BackupCreated (backup_path env));
  _ ← silent (write_file env catalog_path (json_dump catalog'));
  print console Written.

(** A console that takes every message but the line of a product titled
    [Odd]. *)
Definition example_console (m : message) : bool :=
  match m with
  | NoVendor (PStr "Odd") _ => false
  | _ => true
  end.

(** * Properties *)

(** ** Dicts *)

Lemma dict_get_set_eq key value d : dict_get key (dict_set key value d) = Some value.
Proof.
  induction d as [|[k v] rest IH]; simpl.
  - by rewrite String.eqb_refl.
  - destruct (String.eqb k key) eqn:E; simpl; rewrite E; done.
Qed.

Lemma dict_get_set_ne key key' value d :
  key ≠ key' → dict_get key' (dict_set key value d) = dict_get key' d.
Proof.
  intros Hne. induction d as [|[k v] rest IH]; simpl.
  - destruct (String.eqb key key') eqn:E; [|done].
    apply String.eqb_eq in E. done.
  - destruct (String.eqb k key) eqn:E; simpl.
    + apply String.eqb_eq in E. subst k.
      destruct (String.eqb key key') eqn:E'; [|done].
      apply String.eqb_eq in E'. done.
    + by rewrite IH.
Qed.

Lemma dict_set_idem key value d :
  dict_set key value (dict_set key value d) = dict_set key value d.
Proof.
  induction d as [|[k v] rest IH]; simpl.
  - by rewrite String.eqb_refl.
  - destruct (String.eqb k key) eqn:E; simpl; rewrite E; [done | by rewrite IH].
Qed.

(** Setting a key keeps the keys in their order; a new key comes last. *)
Lemma dict_set_keys key value d :
  (dict_set key value d).*1 =
    match dict_get key d with
    | Some _ => d.*1
    | None => d.*1 ++ [key]
    end.
Proof.
  induction d as [|[k v] rest IH]; simpl; [done|].
  destruct (String.eqb k key) eqn:E; [done|].
  rewrite fmap_cons, IH. by destruct (dict_get key rest).
Qed.

(** ** Running the result monad *)

Lemma bind_Ok {A B} (r : result A) (k : A → result B) (b : B) :
  r ≫= k = Ok b → ∃ a, r = Ok a ∧ k a = Ok b.
Proof. destruct r as [a|e]; simpl; [eauto | done]. Qed.

Ltac inv_bind H :=
  let a := fresh "a" in
  let Ha := fresh "Ha" in
  apply bind_Ok in H as (a & Ha & H).

(** ** Strings *)

Example strip_lower_example : strip (lower " ABC-123 ") = "abc-123".
Proof. reflexivity. Qed.

Lemma truthy_nonempty s : truthy s = true ↔ s ≠ "".
Proof. destruct s; simpl; split; done. Qed.

Lemma isspace_lower_char c : isspace c = true → lower_char c = c.
Proof.
  destruct c as [[] [] [] [] [] [] [] []]; vm_compute; done.
Qed.

Lemma lstrip_whitespace_only s : whitespace_only s = true → lstrip s = "".
Proof.
  unfold whitespace_only. induction s as [|c rest IH]; simpl; [done|].
  intros [Hc Hrest]%andb_prop. rewrite Hc. by apply IH.
Qed.

Lemma lower_whitespace_only s : whitespace_only s = true → lower s = s.
Proof.
  unfold whitespace_only. induction s as [|c rest IH]; simpl; [done|].
  intros [Hc Hrest]%andb_prop. by rewrite isspace_lower_char, IH.
Qed.

Lemma strip_lower_whitespace_only s :
  whitespace_only s = true → strip (lower s) = "".
Proof.
  intros H. rewrite lower_whitespace_only by done.
  unfold strip. by rewrite lstrip_whitespace_only.
Qed.

(** Lowering and trimming are idempotent and commute. *)
Lemma lower_char_idem c : lower_char (lower_char c) = lower_char c.
Proof. destruct c as [[] [] [] [] [] [] [] []]; vm_compute; done. Qed.

Lemma isspace_lower_char_eq c : isspace (lower_char c) = isspace c.
Proof. destruct c as [[] [] [] [] [] [] [] []]; vm_compute; done. Qed.

Lemma lower_idem s : lower (lower s) = lower s.
Proof. induction s as [|c rest IH]; simpl; [done|]. by rewrite lower_char_idem, IH. Qed.

Lemma lower_lstrip s : lower (lstrip s) = lstrip (lower s).
Proof.
  induction s as [|c rest IH]; simpl; [done|].
  rewrite isspace_lower_char_eq. by destruct (isspace c).
Qed.

Lemma lower_rstrip s : lower (rstrip s) = rstrip (lower s).
Proof.
  induction s as [|c rest IH]; simpl; [done|].
  rewrite <- IH, isspace_lower_char_eq.
  destruct (rstrip rest); simpl; [by destruct (isspace c) | done].
Qed.

Lemma lower_strip s : lower (strip s) = strip (lower s).
Proof. unfold strip. by rewrite lower_rstrip, lower_lstrip. Qed.

Lemma rstrip_idem s : rstrip (rstrip s) = rstrip s.
Proof.
  induction s as [|c rest IH]; simpl; [done|].
  destruct (rstrip rest) as [|k kept] eqn:E.
  - destruct (isspace c) eqn:Ec; simpl; [done | by rewrite Ec].
  - simpl in *. by rewrite IH.
Qed.

Lemma lstrip_starts_clean s : starts_clean (lstrip s).
Proof. induction s as [|c rest IH]; simpl; [done|]. by destruct (isspace c) eqn:E. Qed.

Lemma rstrip_starts_clean s : starts_clean s → starts_clean (rstrip s).
Proof.
  destruct s as [|c rest]; simpl; [done|]. intros Hc.
  destruct (rstrip rest); [by rewrite Hc | done].
Qed.

Lemma lstrip_clean s : starts_clean s → lstrip s = s.
Proof. destruct s as [|c rest]; simpl; [done|]. by intros ->. Qed.

Lemma strip_idem s : strip (strip s) = strip s.
Proof.
  unfold strip.
  rewrite (lstrip_clean (rstrip (lstrip s)))
    by apply rstrip_starts_clean, lstrip_starts_clean.
  apply rstrip_idem.
Qed.

(** A normalized handle is in lower case and trimmed. *)
Lemma normalized_fixed s :
  lower (strip (lower s)) = strip (lower s) ∧ strip (strip (lower s)) = strip (lower s).
Proof. split; [by rewrite lower_strip, lower_idem | apply strip_idem]. Qed.

(** ** The loader *)

Lemma load_row_Ok vendor_map row vendor_map' :
  load_row vendor_map row = Ok vendor_map' →
  ∃ h v, row_handle row = Ok h ∧ row_vendor row = Ok v ∧
         vendor_map' = if truthy h && truthy v then <[h := v]> vendor_map else vendor_map.
Proof.
  unfold load_row. intros H.
  inv_bind H. inv_bind H. exists a, a0.
  destruct (truthy a && truthy a0); naive_solver.
Qed.

Lemma load_row_entry vendor_map row h v :
  row_handle row = Ok h → row_vendor row = Ok v →
  load_row vendor_map row =
    Ok (if truthy h && truthy v then <[h := v]> vendor_map else vendor_map).
Proof.
  intros Hh Hv. unfold load_row. rewrite Hh, Hv. simpl.
  by destruct (truthy h && truthy v).
Qed.

Lemma load_rows_app before after vendor_map :
  load_rows (before ++ after) vendor_map =
    load_rows before vendor_map ≫= load_rows after.
Proof.
  revert vendor_map. induction before as [|row rest IH]; intros vm; simpl; [done|].
  destruct (load_row vm row) as [vm'|e]; simpl; [apply IH | done].
Qed.

Lemma load_rows_total reader vendor_map :
  Forall row_ok reader → ∃ vendor_map', load_rows reader vendor_map = Ok vendor_map'.
Proof.
  intros H. revert vendor_map.
  induction H as [|row rest (h & v & Hh & Hv) _ IH]; intros vm; simpl; [eauto|].
  rewrite (load_row_entry _ _ _ _ Hh Hv). simpl. apply IH.
Qed.

(** Every entry of the loaded map is the normalized handle and the trimmed
    vendor of some row, both non-empty; entries there before the loop stay
    unless overwritten. *)
Lemma load_rows_entries reader vendor_map vendor_map' k x :
  load_rows reader vendor_map = Ok vendor_map' →
  vendor_map' !! k = Some x →
  vendor_map !! k = Some x ∨
  ∃ row, row ∈ reader ∧ row_handle row = Ok k ∧ row_vendor row = Ok x ∧ k ≠ "" ∧ x ≠ "".
Proof.
  revert vendor_map. induction reader as [|row rest IH]; intros vm; simpl.
  - intros [= <-]. auto.
  - intros H Hk. inv_bind H.
    apply load_row_Ok in Ha as (h & v & Hh & Hv & ->).
    destruct (IH _ H Hk) as [Hin | (r & Hr & ?)].
    + destruct (truthy h && truthy v) eqn:E; [|auto].
      apply andb_prop in E as [Eh Ev].
      destruct (decide (h = k)) as [->|Hne].
      * rewrite lookup_insert_eq in Hin. injection Hin as <-.
        right. exists row. rewrite !truthy_nonempty in *.
        split; [apply list_elem_of_here | done].
      * rewrite lookup_insert_ne in Hin by done. auto.
    + right. exists r. split; [by apply list_elem_of_further | done].
Qed.

Lemma load_records_entries records vendor_map k x :
  load_records records = Ok vendor_map →
  vendor_map !! k = Some x →
  ∃ row, row ∈ DictReader records ∧
         row_handle row = Ok k ∧ row_vendor row = Ok x ∧ k ≠ "" ∧ x ≠ "".
Proof.
  intros H Hk. destruct (load_rows_entries _ _ _ _ _ H Hk) as [Hin|]; [|done].
  by rewrite lookup_empty in Hin.
Qed.

(** No key of a loaded map is the empty string. *)
Lemma load_records_no_empty_key records vendor_map :
  load_records records = Ok vendor_map → vendor_map !! "" = None.
Proof.
  intros H. destruct (vendor_map !! "") as [x|] eqn:E; [|done].
  destruct (load_records_entries _ _ _ _ H E) as (_ & _ & _ & _ & ? & _). done.
Qed.

(** The values a row contributes: the handle in lower case and trimmed, the
    vendor trimmed. *)
Lemma row_handle_normal row h :
  row_handle row = Ok h → lower h = h ∧ strip h = h.
Proof.
  unfold row_handle. simpl.
  destruct (dict_get "Handle" row) as [[| | | |s| |]|]; simpl; try done.
  - intros [= <-]. apply normalized_fixed.
  - intros [= <-]. done.
Qed.

Lemma row_vendor_normal row v : row_vendor row = Ok v → strip v = v.
Proof.
  unfold row_vendor. simpl.
  destruct (dict_get "Vendor" row) as [[| | | |s| |]|]; simpl; try done.
  - intros [= <-]. apply strip_idem.
  - intros [= <-]. done.
Qed.

(** Every key of a loaded map is a non-empty string in lower case and
    trimmed, every value a non-empty trimmed string. *)
Lemma load_records_normal records vendor_map k x :
  load_records records = Ok vendor_map →
  vendor_map !! k = Some x →
  k ≠ "" ∧ lower k = k ∧ strip k = k ∧ x ≠ "" ∧ strip x = x.
Proof.
  intros H Hk.
  destruct (load_records_entries _ _ _ _ H Hk) as (row & _ & Hh & Hv & ? & ?).
  destruct (row_handle_normal _ _ Hh). pose proof (row_vendor_normal _ _ Hv). done.
Qed.

(** An entry survives the rows that do not overwrite it. *)
Lemma load_rows_keeps reader vendor_map h v :
  vendor_map !! h = Some v →
  Forall (fun r => ∃ h' v', row_handle r = Ok h' ∧ row_vendor r = Ok v' ∧
                            (h' = h → v' = "")) reader →
  ∃ vendor_map', load_rows reader vendor_map = Ok vendor_map' ∧ vendor_map' !! h = Some v.
Proof.
  intros Hin H. revert vendor_map Hin.
  induction H as [|row rest (h' & v' & Hh & Hv & Hblank) _ IH]; intros vm Hin; simpl.
  - eauto.
  - rewrite (load_row_entry _ _ _ _ Hh Hv). simpl. apply IH.
    destruct (truthy h' && truthy v') eqn:E; [|done].
    apply andb_prop in E as [_ Ev]. apply truthy_nonempty in Ev.
    rewrite lookup_insert_ne; [done|]. intros ->. auto.
Qed.

(** C6, at a record shorter than the header: DictReader sets the missing
    Vendor to None, [row.get('Vendor', '')] returns that None, and its
    [strip] raises, where the claim has the row skipped without an error. *)
Theorem load_records_short_record :
  load_records [["Handle"; "Vendor"]; ["abc"]] = Raise AttributeError.
Proof. vm_compute. reflexivity. Qed.





(** ** The update loop *)

Lemma product_handle_dict product h :
  product_handle product = Ok h →
  ∃ d, product = PDict d ∧
       h = strip (lower (match dict_get "handle" d with
                         | Some (PStr s) => s
                         | _ => ""
                         end)) ∧
       (dict_get "handle" d = None ∨ ∃ s, dict_get "handle" d = Some (PStr s)).
Proof.
  unfold product_handle. destruct product as [| | | | |?|d]; try done.
  simpl. destruct (dict_get "handle" d) as [[| | | |s| |]|] eqn:E; try done.
  - simpl. intros [= <-]. exists d. rewrite E. eauto 6.
  - simpl. intros [= <-]. exists d. rewrite E. eauto.
Qed.

Lemma product_ok_handle product :
  product_ok product ↔ ∃ h, product_handle product = Ok h.
Proof.
  split.
  - intros (d & -> & [E | (s & E)]); unfold product_handle; simpl; rewrite E; simpl; eauto.
  - intros (h & H). apply product_handle_dict in H as (d & -> & _ & H). by exists d.
Qed.

(** The step on a product with a readable handle. *)
Lemma add_vendor_dict vendor_map d h :
  product_handle (PDict d) = Ok h →
  add_vendor vendor_map (PDict d) =
    match (if truthy h then vendor_map !! h else None) with
    | Some v => Ok (PDict (dict_set "vendor" (PStr v) d), true)
    | None => Ok (PDict d, false)
    end.
Proof.
  intros Hh. unfold add_vendor. rewrite Hh. simpl.
  unfold contains, getitem. destruct (truthy h); simpl; [|done].
  destruct (vendor_map !! h) as [v|] eqn:E.
  - rewrite bool_decide_eq_true_2 by eauto. done.
  - rewrite bool_decide_eq_false_2; [done|]. by intros [? ?].
Qed.

Lemma add_vendor_Ok vendor_map product product' b :
  add_vendor vendor_map product = Ok (product', b) →
  ∃ d h, product = PDict d ∧ product_handle product = Ok h ∧
    match (if truthy h then vendor_map !! h else None) with
    | Some v => product' = PDict (dict_set "vendor" (PStr v) d) ∧ b = true
    | None => product' = product ∧ b = false
    end.
Proof.
  intros H. pose proof H as H'. unfold add_vendor in H'. inv_bind H'.
  destruct (product_handle_dict _ _ Ha) as (d & -> & _ & _).
  exists d, a. split; [done|]. split; [done|].
  rewrite (add_vendor_dict _ _ _ Ha) in H.
  destruct (if truthy a then vendor_map !! a else None); naive_solver.
Qed.

Lemma add_vendor_total vendor_map product :
  product_ok product → ∃ product' b, add_vendor vendor_map product = Ok (product', b).
Proof.
  intros Hok. pose proof Hok as (d & -> & _).
  apply product_ok_handle in Hok as (h & Hh).
  rewrite (add_vendor_dict _ _ _ Hh).
  destruct (if truthy h then vendor_map !! h else None); eauto.
Qed.

(** The handle is not the field that the step writes. *)
Lemma product_handle_set_vendor d value :
  product_handle (PDict (dict_set "vendor" value d)) = product_handle (PDict d).
Proof. unfold product_handle. simpl. by rewrite dict_get_set_ne. Qed.

(** A second step on the product changes nothing more. *)
Lemma add_vendor_again vendor_map product product' b :
  add_vendor vendor_map product = Ok (product', b) →
  add_vendor vendor_map product' = Ok (product', b).
Proof.
  intros H. pose proof (add_vendor_Ok _ _ _ _ H) as (d & h & -> & Hh & Hcase).
  destruct (if truthy h then vendor_map !! h else None) as [v|] eqn:E.
  - destruct Hcase as [-> ->].
    rewrite (add_vendor_dict _ _ h) by (by rewrite product_handle_set_vendor).
    by rewrite E, dict_set_idem.
  - by destruct Hcase as [-> ->].
Qed.

Lemma add_vendor_blank vendor_map product :
  blank_handle product → add_vendor vendor_map product = Ok (product, false).
Proof.
  intros (d & -> & Hblank).
  assert (product_handle (PDict d) = Ok "") as Hh.
  { unfold product_handle. simpl. destruct Hblank as [-> | (s & -> & Hs)]; simpl; [done|].
    by rewrite strip_lower_whitespace_only. }
  by rewrite (add_vendor_dict _ _ _ Hh).
Qed.

(** The loop: each product goes through its step, in place, and each step
    adds one to one counter. *)
Lemma update_products_Ok vendor_map products u0 n0 products' u n :
  update_products vendor_map products u0 n0 = Ok (products', u, n) →
  Forall2 (fun p p' => add_vendor vendor_map p = Ok (p', hit vendor_map p)) products products' ∧
  u = u0 + length (List.filter (hit vendor_map) products) ∧
  n = n0 + length (List.filter (fun p => negb (hit vendor_map p)) products).
Proof.
  revert u0 n0 products' u n.
  induction products as [|p rest IH]; intros u0 n0 products' u n; simpl.
  - intros [= <- <- <-]. split; [constructor | lia].
  - intros H. inv_bind H. destruct a as [p' b]. inv_bind H.
    destruct a as [[rest' u1] n1]. injection H as <- <- <-.
    apply IH in Ha0 as (Hall & -> & ->).
    assert (hit vendor_map p = b) as Hb by (unfold hit; by rewrite Ha).
    rewrite Hb. split; [constructor; [by rewrite Hb | done]|].
    destruct b; simpl; lia.
Qed.

Lemma update_products_total vendor_map products u0 n0 :
  Forall product_ok products →
  ∃ products' u n, update_products vendor_map products u0 n0 = Ok (products', u, n).
Proof.
  intros H. revert u0 n0. induction H as [|p rest Hp _ IH]; intros u0 n0; simpl; [eauto|].
  destruct (add_vendor_total vendor_map p Hp) as (p' & b & ->). simpl.
  destruct (IH (if b then S u0 else u0) (if b then n0 else S n0)) as (rest' & u & n & ->).
  simpl. eauto.
Qed.

Lemma update_products_again vendor_map products u0 n0 products' u n :
  update_products vendor_map products u0 n0 = Ok (products', u, n) →
  update_products vendor_map products' u0 n0 = Ok (products', u, n).
Proof.
  revert u0 n0 products' u n.
  induction products as [|p rest IH]; intros u0 n0 products' u n; simpl.
  - by intros [= <- <- <-].
  - intros H. inv_bind H. destruct a as [p' b]. inv_bind H.
    destruct a as [[rest' u1] n1]. injection H as <- <- <-.
    simpl. rewrite (add_vendor_again _ _ _ _ Ha). simpl.
    by rewrite (IH _ _ _ _ _ Ha0).
Qed.

(** ** The catalog *)

(** The run of lines 40-51 on a well-formed catalog: the products list is
    replaced, in its place, by the list of the products after their steps,
    and the counters count the two branches. *)
Lemma update_catalog_steps vendor_map catalog products :
  well_formed catalog products →
  ∃ top products' u n,
    catalog = PDict top ∧
    update_catalog vendor_map catalog =
      Ok (PDict (dict_set "products" (PList products') top), u, n) ∧
    Forall2 (fun p p' => add_vendor vendor_map p = Ok (p', hit vendor_map p))
            products products' ∧
    u = length (List.filter (hit vendor_map) products) ∧
    n = length (List.filter (fun p => negb (hit vendor_map p)) products).
Proof.
  intros (top & -> & Hget & Hall).
  destruct (update_products_total vendor_map products 0 0 Hall) as (products' & u & n & Hloop).
  exists top, products', u, n. split; [done|].
  split; [unfold update_catalog; simpl; rewrite Hget; simpl; by rewrite Hloop|].
  by apply update_products_Ok in Hloop as (? & -> & ->).
Qed.

Lemma catalog_products_set top value :
  catalog_products (PDict (dict_set "products" value top)) = Ok value.
Proof. simpl. by rewrite dict_get_set_eq. Qed.

(** C4: the products of the updated catalog are as many as before, and the
    product at each position is the result of the step on the product that
    was at that position. *)
Theorem products_count_and_order vendor_map catalog products :
  well_formed catalog products →
  ∃ catalog' products' u n,
    update_catalog vendor_map catalog = Ok (catalog', u, n) ∧
    catalog_products catalog' = Ok (PList products') ∧
    length products' = length products ∧
    ∀ i p, products !! i = Some p →
      ∃ p' b, add_vendor vendor_map p = Ok (p', b) ∧ products' !! i = Some p'.
Proof.
  intros Hwf.
  destruct (update_catalog_steps vendor_map _ _ Hwf)
    as (top & products' & u & n & -> & Hrun & Hall & _ & _).
  exists (PDict (dict_set "products" (PList products') top)), products', u, n.
  split; [done|]. split; [apply catalog_products_set|].
  split; [symmetry; by eapply Forall2_length|].
  intros i p Hi.
  destruct (Forall2_lookup_l _ _ _ _ _ Hall Hi) as (p' & Hi' & Hstep). eauto.
Qed.

Lemma products_count_and_order_witness :
  ∃ catalog' products' u n,
    update_catalog {[ "hat-001" := "Acme" ]} example_catalog = Ok (catalog', u, n) ∧
    catalog_products catalog' = Ok (PList products') ∧
    length products' = 1 ∧
    ∀ i p, [PDict [("handle", PStr "Hat-001"); ("title", PStr "Red Hat")]] !! i = Some p →
      ∃ p' b, add_vendor {[ "hat-001" := "Acme" ]} p = Ok (p', b) ∧ products' !! i = Some p'.
Proof.
  apply (products_count_and_order {[ "hat-001" := "Acme" ]} example_catalog
           [PDict [("handle", PStr "Hat-001"); ("title", PStr "Red Hat")]]).
  eexists. split; [reflexivity|]. split; [reflexivity|].
  constructor; [|constructor]. eexists. split; [reflexivity|]. right. eexists. reflexivity.
Defined.

(** C1: with the map that the loader returns, the step takes its first
    branch on a product exactly when the handle of the product, put in lower
    case and trimmed, is a key of the map (a product without a handle counts
    as one with the empty handle); then the product is the one it was with
    its vendor set to the value under that key, and otherwise the product
    stays as it is.  The test [handle and ..] of line 47 changes nothing,
    since the loader stores no empty key. *)
Theorem join_correct records vendor_map catalog products :
  load_records records = Ok vendor_map →
  well_formed catalog products →
  ∃ catalog' products' u n,
    update_catalog vendor_map catalog = Ok (catalog', u, n) ∧
    catalog_products catalog' = Ok (PList products') ∧
    ∀ i p, products !! i = Some p →
      ∃ d s p' b,
        p = PDict d ∧
        (dict_get "handle" d = Some (PStr s) ∨ dict_get "handle" d = None ∧ s = "") ∧
        product_handle p = Ok (strip (lower s)) ∧
        add_vendor vendor_map p = Ok (p', b) ∧
        products' !! i = Some p' ∧
        (b = true ↔ is_Some (vendor_map !! strip (lower s))) ∧
        (∀ v, vendor_map !! strip (lower s) = Some v →
              p' = PDict (dict_set "vendor" (PStr v) d) ∧
              py_get p' "vendor" PNone = Ok (PStr v)) ∧
        (vendor_map !! strip (lower s) = None → p' = p).
Proof.
  intros Hload Hwf.
  destruct (update_catalog_steps vendor_map _ _ Hwf)
    as (top & products' & u & n & -> & Hrun & Hall & _ & _).
  exists (PDict (dict_set "products" (PList products') top)), products', u, n.
  split; [done|]. split; [apply catalog_products_set|].
  intros i p Hi.
  destruct (Forall2_lookup_l _ _ _ _ _ Hall Hi) as (p' & Hi' & Hstep).
  set (b := hit vendor_map p) in *.
  destruct (add_vendor_Ok _ _ _ _ Hstep) as (d & h & -> & Hh & Hcase).
  destruct (product_handle_dict _ _ Hh) as (d0 & [= <-] & Hnorm & Hfield).
  assert (∃ s, (dict_get "handle" d = Some (PStr s) ∨ dict_get "handle" d = None ∧ s = "")
               ∧ h = strip (lower s)) as (s & Hs & ->).
  { destruct Hfield as [E | [s E]]; rewrite E in Hnorm.
    - exists "". auto.
    - exists s. auto. }
  exists d, s, p', b. split; [done|]. split; [done|]. split; [done|].
  split; [done|]. split; [done|].
  assert ((if truthy (strip (lower s)) then vendor_map !! strip (lower s) else None)
          = vendor_map !! strip (lower s)) as Hguard.
  { destruct (strip (lower s)); [|done]. simpl. symmetry.
    by eapply load_records_no_empty_key. }
  rewrite Hguard in Hcase.
  destruct (vendor_map !! strip (lower s)) as [v|] eqn:E.
  - destruct Hcase as [-> ->]. split; [by eauto|]. split; [|done].
    intros ? [= <-]. split; [done|]. simpl. by rewrite dict_get_set_eq.
  - destruct Hcase as [-> ->]. split; [|done]. split; [done | by intros [? ?]].
Qed.

(** The store of three products against a table of one row: the first
    product, whose handle is the row's in capitals between spaces, is given
    the vendor in place of the one it had; the other two stay. *)
Lemma join_correct_witness :
  update_catalog {[ "hat-001" := "Acme" ]} example_store
    = Ok (PDict [("version", PInt 3);
                 ("products",
                  PList [PDict [("handle", PStr " HAT-001 "); ("vendor", PStr "Acme");
                                ("price", PInt 12)];
                         PDict [("handle", PStr "   "); ("vendor", PStr "Kept")];
                         PDict [("title", PStr "No handle")]]);
                 ("source", PStr "shop")], 1, 2) ∧
  ∃ catalog' products' u n,
    update_catalog {[ "hat-001" := "Acme" ]} example_store = Ok (catalog', u, n) ∧
    catalog_products catalog' = Ok (PList products') ∧
    ∀ i p, example_store_products !! i = Some p →
      ∃ d s p' b,
        p = PDict d ∧
        (dict_get "handle" d = Some (PStr s) ∨ dict_get "handle" d = None ∧ s = "") ∧
        product_handle p = Ok (strip (lower s)) ∧
        add_vendor {[ "hat-001" := "Acme" ]} p = Ok (p', b) ∧
        products' !! i = Some p' ∧
        (b = true ↔ is_Some (({[ "hat-001" := "Acme" ]} : gmap string string)
                               !! strip (lower s))) ∧
        (∀ v, ({[ "hat-001" := "Acme" ]} : gmap string string) !! strip (lower s) = Some v →
              p' = PDict (dict_set "vendor" (PStr v) d) ∧
              py_get p' "vendor" PNone = Ok (PStr v)) ∧
        (({[ "hat-001" := "Acme" ]} : gmap string string) !! strip (lower s) = None → p' = p).
Proof.
  split; [vm_compute; reflexivity|].
  apply (join_correct [["Handle"; "Vendor"]; ["hat-001"; "Acme"]]
           {[ "hat-001" := "Acme" ]} example_store example_store_products).
  - vm_compute. reflexivity.
  - eexists. split; [reflexivity|]. split; [reflexivity|].
    constructor; [|constructor; [|constructor; [|constructor]]].
    + eexists. split; [reflexivity|]. right. eexists. reflexivity.
    + eexists. split; [reflexivity|]. right. eexists. reflexivity.
    + eexists. split; [reflexivity|]. left. reflexivity.
Defined.

(** The step leaves every field but [vendor] as it was, in its place. *)
Lemma add_vendor_frame vendor_map product product' b :
  add_vendor vendor_map product = Ok (product', b) →
  ∃ d d', product = PDict d ∧ product' = PDict d' ∧
    (∀ key, key ≠ "vendor" → dict_get key d' = dict_get key d) ∧
    (d'.*1 = d.*1 ∨ d'.*1 = d.*1 ++ ["vendor"]).
Proof.
  intros H. apply add_vendor_Ok in H as (d & h & -> & _ & Hcase).
  exists d. destruct (if truthy h then vendor_map !! h else None) as [v|].
  - destruct Hcase as [-> _]. eexists. split; [done|]. split; [done|]. split.
    + intros key Hkey. by rewrite dict_get_set_ne.
    + rewrite dict_set_keys. destruct (dict_get "vendor" d); auto.
  - destruct Hcase as [-> _]. exists d. split; [done|]. split; [done|].
    split; [done | by left].
Qed.

(** In memory, on a catalog of the data model: in the updated catalog every
    top-level field other than [products] has the value it had, the
    top-level fields are in the order they were, and each product has every
    field other than [vendor] as it was. *)
Theorem other_fields_unchanged vendor_map catalog products :
  well_formed catalog products →
  ∃ top top' products' u n,
    catalog = PDict top ∧
    update_catalog vendor_map catalog = Ok (PDict top', u, n) ∧
    (∀ key, key ≠ "products" → dict_get key top' = dict_get key top) ∧
    top'.*1 = top.*1 ∧
    dict_get "products" top' = Some (PList products') ∧
    Forall2 (fun p p' =>
               ∃ d d', p = PDict d ∧ p' = PDict d' ∧
                 ∀ key, key ≠ "vendor" → dict_get key d' = dict_get key d)
            products products'.
Proof.
  intros Hwf. pose proof Hwf as (top0 & Htop & Hget & _).
  destruct (update_catalog_steps vendor_map _ _ Hwf)
    as (top & products' & u & n & -> & Hrun & Hall & _ & _).
  injection Htop as <-.
  exists top, (dict_set "products" (PList products') top), products', u, n.
  split; [done|]. split; [done|].
  split; [intros key Hkey; by rewrite dict_get_set_ne|].
  split; [by rewrite dict_set_keys, Hget|].
  split; [apply dict_get_set_eq|].
  eapply Forall2_impl; [exact Hall|]. simpl. intros p p' Hstep.
  apply add_vendor_frame in Hstep as (d & d' & -> & -> & Hframe & _). eauto.
Qed.

Lemma other_fields_unchanged_witness :
  ∃ top top' products' u n,
    example_store = PDict top ∧
    update_catalog {[ "hat-001" := "Acme" ]} example_store = Ok (PDict top', u, n) ∧
    (∀ key, key ≠ "products" → dict_get key top' = dict_get key top) ∧
    top'.*1 = top.*1 ∧
    dict_get "products" top' = Some (PList products') ∧
    Forall2 (fun p p' =>
               ∃ d d', p = PDict d ∧ p' = PDict d' ∧
                 ∀ key, key ≠ "vendor" → dict_get key d' = dict_get key d)
            example_store_products products'.
Proof.
  apply (other_fields_unchanged {[ "hat-001" := "Acme" ]} example_store example_store_products).
  eexists. split; [reflexivity|]. split; [reflexivity|].
  constructor; [|constructor; [|constructor; [|constructor]]].
  - eexists. split; [reflexivity|]. right. eexists. reflexivity.
  - eexists. split; [reflexivity|]. right. eexists. reflexivity.
  - eexists. split; [reflexivity|]. left. reflexivity.
Defined.

(** C9: the update applied to a catalog it has already updated returns that
    catalog again, with the same counters. *)
Theorem update_catalog_idempotent vendor_map catalog catalog' u n :
  update_catalog vendor_map catalog = Ok (catalog', u, n) →
  update_catalog vendor_map catalog' = Ok (catalog', u, n).
Proof.
  intros H. pose proof H as H'. unfold update_catalog in H'.
  inv_bind H'. rename a into products. inv_bind H'. rename a into items.
  inv_bind H'. destruct a as [[items' u'] n'].
  assert (∃ top, catalog = PDict top ∧ dict_get "products" top = Some products)
    as (top & -> & Hget).
  { destruct catalog; try done. simpl in Ha.
    destruct (dict_get "products" items0) eqn:E; [|done]. injection Ha as <-. eauto. }
  destruct products as [| | | | |ps|d].
  1-5, 7: injection H' as <- <- <-; exact H.
  injection H' as <- <- <-. simpl in Ha0. injection Ha0 as <-.
  unfold update_catalog. simpl. rewrite dict_get_set_eq. simpl.
  rewrite (update_products_again _ _ _ _ _ _ _ Ha1). simpl.
  by rewrite dict_set_idem.
Qed.

Lemma update_catalog_idempotent_witness :
  update_catalog {[ "hat-001" := "Acme" ]}
    (PDict [("products", PList [PDict [("handle", PStr "Hat-001"); ("title", PStr "Red Hat");
                                       ("vendor", PStr "Acme")]])])
  = Ok (PDict [("products", PList [PDict [("handle", PStr "Hat-001"); ("title", PStr "Red Hat");
                                          ("vendor", PStr "Acme")]])], 1, 0).
Proof.
  apply (update_catalog_idempotent {[ "hat-001" := "Acme" ]} example_catalog).
  vm_compute. reflexivity.
Defined.

(** C10: after the loop the two counters add up to the number of products:
    [updated_count] counts the products on which the step took its first
    branch, [not_found_count] the others; a product without a handle, or
    with a handle of whitespace only, is among the others. *)
Theorem counters_partition vendor_map catalog products :
  well_formed catalog products →
  ∃ catalog' u n,
    update_catalog vendor_map catalog = Ok (catalog', u, n) ∧
    u + n = length products ∧
    u = length (List.filter (hit vendor_map) products) ∧
    n = length (List.filter (fun p => negb (hit vendor_map p)) products) ∧
    ∀ p, p ∈ products → blank_handle p → hit vendor_map p = false.
Proof.
  intros Hwf.
  destruct (update_catalog_steps vendor_map _ _ Hwf)
    as (top & products' & u & n & -> & Hrun & _ & -> & ->).
  eexists _, _, _. split; [exact Hrun|].
  split; [apply List.filter_length|]. split; [done|]. split; [done|].
  intros p _ Hblank. unfold hit. by rewrite add_vendor_blank.
Qed.

Lemma counters_partition_witness :
  ∃ catalog' u n,
    update_catalog {[ "hat-001" := "Acme" ]} example_store = Ok (catalog', u, n) ∧
    u + n = length example_store_products ∧
    u = length (List.filter (hit {[ "hat-001" := "Acme" ]}) example_store_products) ∧
    n = length (List.filter (fun p => negb (hit {[ "hat-001" := "Acme" ]} p))
                  example_store_products) ∧
    ∀ p, p ∈ example_store_products →
         blank_handle p → hit {[ "hat-001" := "Acme" ]} p = false.
Proof.
  apply (counters_partition {[ "hat-001" := "Acme" ]} example_store example_store_products).
  eexists. split; [reflexivity|]. split; [reflexivity|].
  constructor; [|constructor; [|constructor; [|constructor]]].
  - eexists. split; [reflexivity|]. right. eexists. reflexivity.
  - eexists. split; [reflexivity|]. right. eexists. reflexivity.
  - eexists. split; [reflexivity|]. left. reflexivity.
Defined.

(** ** The run *)

Lemma append_nonempty_ne (s t : string) : t ≠ "" → s +:+ t ≠ s.
Proof.
  intros Ht. induction s as [|c s IH]; simpl; [done|].
  intros [= H]. by apply IH.
Qed.

Lemma backup_path_fresh env : backup_path env ≠ catalog_path.
Proof. unfold backup_path. by apply append_nonempty_ne. Qed.

Section Run.

Variable csv_reader : list byte -> list (list string) * option exn.
Variable json_load : list byte -> result pyval.
Variable json_dump : pyval -> list byte.

(** The course of a run from a file system with nothing done yet: it ends
    before the copy with both untouched, or the copy is refused or torn
    and nothing else happens, or the copy is made and then the write is
    attempted. *)
Lemma run_course env files r w' :
  run csv_reader json_load json_dump env files = (r, w') →
  ((∃ e, r = Raise e) ∧ w' = World files []) ∨
  ∃ f catalog' u n,
    files !! catalog_path = Some f ∧
    (∃ table vendor_map catalog,
       files !! csv_path = Some table ∧
       load_records (csv_reader (data table)).1 = Ok vendor_map ∧
       (csv_reader (data table)).2 = None ∧
       json_load (data f) = Ok catalog ∧
       update_catalog vendor_map catalog = Ok (catalog', u, n)) ∧
    match copy_outcome env with
    | Denied =>
        r = Raise (OSError (backup_path env)) ∧
        w' = World files [Copy catalog_path (backup_path env) Denied]
    | Torn k =>
        r = Raise (OSError (backup_path env)) ∧
        w' = World (<[backup_path env :=
                        File (take k (data f))
                             (mode_at env (World files []) (backup_path env))
                             (now env)]> files)
                   [Copy catalog_path (backup_path env) (Torn k)]
    | Done =>
        let saved := <[backup_path env := f]> files in
        let log := [Copy catalog_path (backup_path env) Done;
                    Write catalog_path (write_outcome env)] in
        match write_outcome env with
        | Done =>
            r = Ok (u, n) ∧
            w' = World (<[catalog_path :=
                            File (json_dump catalog') (mode f) (now env)]> saved) log
        | Denied => r = Raise (OSError catalog_path) ∧ w' = World saved log
        | Torn k =>
            r = Raise (OSError catalog_path) ∧
            w' = World (<[catalog_path :=
                            File (take k (json_dump catalog')) (mode f) (now env)]> saved) log
        end
    end.
Proof.
  unfold run, main, load_vendor_map.
  unfold mbind, io_bind, mret, io_ret, lift, read_file. simpl.
  destruct (files !! csv_path) as [table|] eqn:Et; simpl;
    [|intros [= <- <-]; left; eauto].
  destruct (load_records _) as [vendor_map|e] eqn:Em; simpl;
    [|intros [= <- <-]; left; eauto].
  destruct (csv_reader _).2 as [e|] eqn:Es; simpl;
    [intros [= <- <-]; left; eauto|].
  destruct (files !! catalog_path) as [f|] eqn:Ef; simpl;
    [|intros [= <- <-]; left; eauto].
  destruct (json_load _) as [catalog|e] eqn:Ej; simpl;
    [|intros [= <- <-]; left; eauto].
  destruct (update_catalog _ _) as [[[catalog' u] n]|e] eqn:Eu; simpl;
    [|intros [= <- <-]; left; eauto].
  intros H. right. exists f, catalog', u, n. split; [done|].
  split; [by exists table, vendor_map, catalog|].
  revert H. unfold copy2, write_file, mode_at. simpl. rewrite Ef.
  destruct (copy_outcome env) as [| |k]; simpl.
  - rewrite lookup_insert_ne by apply backup_path_fresh. rewrite Ef.
    destruct (write_outcome env); intros [= <- <-]; done.
  - intros [= <- <-]. done.
  - intros [= <- <-]. done.
Qed.

(** A run that ends well has written the document that the update returned
    for the document it read, and reports the counters of that update. *)
Lemma run_written env files counts w' :
  run csv_reader json_load json_dump env files = (Ok counts, w') →
  ∃ table f vendor_map catalog catalog',
    files !! csv_path = Some table ∧
    files !! catalog_path = Some f ∧
    load_records (csv_reader (data table)).1 = Ok vendor_map ∧
    json_load (data f) = Ok catalog ∧
    update_catalog vendor_map catalog = Ok (catalog', counts.1, counts.2) ∧
    data <$> fs w' !! catalog_path = Some (json_dump catalog').
Proof.
  intros H. apply run_course in H as [[[e [=]] _] | (f & catalog' & u & n & Hf & Hprep & H)].
  destruct Hprep as (table & vendor_map & catalog & Ht & Hm & _ & Hj & Hu).
  exists table, f, vendor_map, catalog, catalog'.
  destruct (copy_outcome env); [|by destruct H|by destruct H].
  destruct (write_outcome env); [|by destruct H|by destruct H].
  destruct H as [[= ->] ->]. simpl. by rewrite lookup_insert_eq.
Qed.

(** C8, amended: the loader checks nothing itself.  It fails when the
    reader stops on an error, and then returns no map at all; a file in
    which the reader finds no record, so no header row either, loads as
    the empty map without an error. *)
Theorem loader_fails_with_reader path w f :
  fs w !! path = Some f →
  (∀ e, (csv_reader (data f)).2 = Some e →
        ∃ e', load_vendor_map csv_reader path w = (Raise e', w)) ∧
  (csv_reader (data f) = ([], None) →
   load_vendor_map csv_reader path w = (Ok ∅, w)).
Proof.
  intros Hf. unfold load_vendor_map.
  unfold mbind, io_bind, mret, io_ret, lift, read_file. rewrite Hf. simpl. split.
  - intros e ->. destruct (load_records _); eauto.
  - intros ->. done.
Qed.

(** C2: a write to the catalog happens only as the step after a copy that
    went through, which left the file as it was under the backup path; and
    when the copy is refused or breaks off, the run ends with that error,
    the catalog file is as it was, and nothing is written. *)
Theorem write_needs_backup env files r w' :
  run csv_reader json_load json_dump env files = (r, w') →
  (∀ path o, In (Write path o) (trace w') →
     ∃ f, files !! catalog_path = Some f ∧
          trace w' = [Copy catalog_path (backup_path env) Done; Write path o] ∧
          fs w' !! backup_path env = Some f) ∧
  (∀ o, In (Copy catalog_path (backup_path env) o) (trace w') → o ≠ Done →
     r = Raise (OSError (backup_path env)) ∧
     fs w' !! catalog_path = files !! catalog_path ∧
     ∀ path o', ¬ In (Write path o') (trace w')).
Proof.
  intros H. apply run_course in H as [[_ ->] | (f & catalog' & u & n & Hf & _ & H)].
  { simpl. split; [by intros ? ? []|by intros ? []]. }
  destruct (copy_outcome env) as [| |k] eqn:Ecopy.
  - assert (trace w' = [Copy catalog_path (backup_path env) Done;
                        Write catalog_path (write_outcome env)] ∧
            fs w' !! backup_path env = Some f) as [Htrace Hsaved].
    { destruct (write_outcome env); destruct H as [_ ->]; simpl; split; try done.
      - rewrite lookup_insert_ne by (intros E; by apply (backup_path_fresh env)).
        apply lookup_insert_eq.
      - apply lookup_insert_eq.
      - rewrite lookup_insert_ne by (intros E; by apply (backup_path_fresh env)).
        apply lookup_insert_eq. }
    rewrite Htrace. split.
    + intros path o [[=]|[[= <- <-]|[]]]. eauto.
    + intros o [[= <-]|[[=]|[]]]. done.
  - destruct H as [-> ->]. simpl. split.
    + intros path o [[=]|[]].
    + intros o _ _. split; [done|]. split; [done|]. intros path o' [[=]|[]].
  - destruct H as [-> ->]. simpl. split.
    + intros path o [[=]|[]].
    + intros o _ _. split; [done|].
      split; [by rewrite lookup_insert_ne by apply backup_path_fresh|].
      intros path o' [[=]|[]].
Qed.

(** C5: when the catalog is written, or the run ends well, exactly one
    copy was made and it came first: to the catalog path followed by
    [.backup-] and the time in whole seconds, of the catalog file as it was
    before the run, bytes and metadata; no file other than that one and the
    catalog is touched. *)
Theorem backup_is_copy env files r w' :
  run csv_reader json_load json_dump env files = (r, w') →
  (∃ counts, r = Ok counts) ∨ (∃ path o, In (Write path o) (trace w')) →
  ∃ f o,
    files !! catalog_path = Some f ∧
    trace w' = [Copy catalog_path (backup_path env) Done; Write catalog_path o] ∧
    backup_path env =
      "valid_image_catalog.json.backup-" +:+ NilZero.string_of_int (Z.to_int (now env)) ∧
    fs w' !! backup_path env = Some f ∧
    ∀ path, path ≠ catalog_path → path ≠ backup_path env →
            fs w' !! path = files !! path.
Proof.
  intros H Hdone.
  apply run_course in H as [[[e ->] ->] | (f & catalog' & u & n & Hf & _ & H)].
  { destruct Hdone as [[? [=]] | (? & ? & [])]. }
  exists f, (write_outcome env). split; [done|].
  destruct (copy_outcome env) as [| |k].
  - assert (∃ files', w' = World files'
              [Copy catalog_path (backup_path env) Done;
               Write catalog_path (write_outcome env)] ∧
              (files' = <[backup_path env := f]> files ∨
               ∃ g, files' = <[catalog_path := g]> (<[backup_path env := f]> files)))
      as (files' & -> & Hfiles).
    { destruct (write_outcome env); destruct H as [_ ->]; eauto. }
    simpl. split; [done|]. split; [done|].
    destruct Hfiles as [-> | [g ->]].
    + split; [apply lookup_insert_eq|].
      intros path _ Hp. by rewrite lookup_insert_ne.
    + split.
      * rewrite lookup_insert_ne by (intros E; by apply (backup_path_fresh env)).
        apply lookup_insert_eq.
      * intros path Hc Hp. by rewrite !lookup_insert_ne.
  - destruct H as [-> ->]. destruct Hdone as [[? [=]] | (? & ? & [[=]|[]])].
  - destruct H as [-> ->]. destruct Hdone as [[? [=]] | (? & ? & [[=]|[]])].
Qed.

End Run.

(** ** The written fields *)

(** Whenever the update returns, it returns the document with every
    top-level field other than [products] as it was and in its place, and,
    where [products] is a list, each product with every field other than
    [vendor] as it was and in its place. *)
Lemma update_catalog_frame vendor_map catalog catalog' u n :
  update_catalog vendor_map catalog = Ok (catalog', u, n) →
  ∃ top top',
    catalog = PDict top ∧ catalog' = PDict top' ∧
    (∀ key, key ≠ "products" → dict_get key top' = dict_get key top) ∧
    top'.*1 = top.*1 ∧
    ∀ products, dict_get "products" top = Some (PList products) →
      ∃ products',
        dict_get "products" top' = Some (PList products') ∧
        Forall2 (fun p p' =>
                   ∃ d d', p = PDict d ∧ p' = PDict d' ∧
                     (∀ key, key ≠ "vendor" → dict_get key d' = dict_get key d) ∧
                     (d'.*1 = d.*1 ∨ d'.*1 = d.*1 ++ ["vendor"]))
                products products'.
Proof.
  intros H. unfold update_catalog in H.
  inv_bind H. rename a into products. inv_bind H. rename a into items.
  inv_bind H. destruct a as [[items' u'] n'].
  destruct catalog as [| | | | | |top]; try done. simpl in Ha.
  destruct (dict_get "products" top) as [v|] eqn:Hget; [|done]. injection Ha as <-.
  exists top.
  destruct v as [| | | | |ps|d].
  1-5, 7: injection H as <- <- <-; exists top; repeat (split; [done|]);
    intros products' E; rewrite Hget in E; discriminate.
  injection H as <- <- <-. simpl in Ha0. injection Ha0 as <-.
  exists (dict_set "products" (PList items') top).
  split; [done|]. split; [done|].
  split; [intros key Hkey; by rewrite dict_get_set_ne|].
  split; [by rewrite dict_set_keys, Hget|].
  intros products E. rewrite Hget in E. injection E as <-.
  exists items'. split; [apply dict_get_set_eq|].
  apply update_products_Ok in Ha1 as (Hall & _ & _).
  eapply Forall2_impl; [exact Hall|]. simpl. intros p p' Hstep.
  apply add_vendor_frame in Hstep as (d & d' & -> & -> & Hframe & Hkeys). eauto 8.
Qed.




(** C8, counterexample: an empty vendor file has no header row, and the
    loader returns the empty map for it. *)
Lemma empty_file_is_not_rejected : ¬ malformed_is_rejected example_csv_reader.
Proof.
  intros H.
  destruct (H csv_path (World {[ csv_path := File [] 420 0 ]} []) (File [] 420 0))
    as [e He].
  - reflexivity.
  - reflexivity.
  - vm_compute in He. discriminate.
Qed.

Lemma loader_fails_with_reader_witness :
  (∀ e, (example_csv_reader []).2 = Some e →
        ∃ e', load_vendor_map example_csv_reader csv_path
                (World {[ csv_path := File [] 420 0 ]} [])
              = (Raise e', World {[ csv_path := File [] 420 0 ]} [])) ∧
  (example_csv_reader [] = ([], None) →
   load_vendor_map example_csv_reader csv_path (World {[ csv_path := File [] 420 0 ]} [])
   = (Ok ∅, World {[ csv_path := File [] 420 0 ]} [])).
Proof.
  apply (loader_fails_with_reader example_csv_reader csv_path
           (World {[ csv_path := File [] 420 0 ]} []) (File [] 420 0)).
  reflexivity.
Defined.

(** A run in which the copy breaks off after five bytes. *)
Lemma write_needs_backup_witness :
  let env := example_env (Torn 5) Done in
  let r := (run example_csv_reader example_json_load example_json_dump env example_fs).1 in
  let w' := (run example_csv_reader example_json_load example_json_dump env example_fs).2 in
  (∀ path o, In (Write path o) (trace w') →
     ∃ f, example_fs !! catalog_path = Some f ∧
          trace w' = [Copy catalog_path (backup_path env) Done; Write path o] ∧
          fs w' !! backup_path env = Some f) ∧
  (∀ o, In (Copy catalog_path (backup_path env) o) (trace w') → o ≠ Done →
     r = Raise (OSError (backup_path env)) ∧
     fs w' !! catalog_path = example_fs !! catalog_path ∧
     ∀ path o', ¬ In (Write path o') (trace w')).
Proof.
  intros env r w'.
  apply (write_needs_backup example_csv_reader example_json_load example_json_dump
           env example_fs r w').
  vm_compute. reflexivity.
Defined.

Example torn_copy_run :
  let end_ := run example_csv_reader example_json_load example_json_dump
                  (example_env (Torn 5) Done) example_fs in
  end_.1 = Raise (OSError "valid_image_catalog.json.backup-1700000000") ∧
  trace end_.2 = [Copy catalog_path "valid_image_catalog.json.backup-1700000000" (Torn 5)] ∧
  data <$> fs end_.2 !! catalog_path = Some example_json ∧
  length <$> (data <$> fs end_.2 !! "valid_image_catalog.json.backup-1700000000") = Some 5.
Proof. vm_compute. done. Qed.

(** A run that goes through. *)
Lemma backup_is_copy_witness :
  let env := example_env Done Done in
  let w' := (run example_csv_reader example_json_load example_json_dump env example_fs).2 in
  ∃ f o,
    example_fs !! catalog_path = Some f ∧
    trace w' = [Copy catalog_path (backup_path env) Done; Write catalog_path o] ∧
    backup_path env =
      "valid_image_catalog.json.backup-" +:+ NilZero.string_of_int (Z.to_int (now env)) ∧
    fs w' !! backup_path env = Some f ∧
    ∀ path, path ≠ catalog_path → path ≠ backup_path env →
            fs w' !! path = example_fs !! path.
Proof.
  intros env w'.
  apply (backup_is_copy example_csv_reader example_json_load example_json_dump
           env example_fs (Ok (1, 0)) w').
  - vm_compute. reflexivity.
  - left. eexists. reflexivity.
Defined.

(** The scenario of the specification, run from the files to the files. *)
Example scenario_run :
  let end_ := run example_csv_reader example_json_load example_json_dump
                  (example_env Done Done) example_fs in
  end_.1 = Ok (1, 0) ∧
  data <$> fs end_.2 !! catalog_path = Some example_json_out ∧
  data <$> fs end_.2 !! "valid_image_catalog.json.backup-1700000000" = Some example_json.
Proof. vm_compute. done. Qed.

(** An object under [handle] that is not a string ends the loop with an
    exception: such a catalog is outside the data model. *)
Example null_handle_raises :
  update_catalog ∅ (PDict [("products", PList [PDict [("handle", PNone)]])])
  = Raise AttributeError.
Proof. reflexivity. Qed.

(** With a map that has the empty key, which the loader never builds, the
    test of line 47 decides: a product of blank handle is still not found. *)
Example empty_key_guard :
  add_vendor {[ "" := "Nobody" ]} (PDict [("handle", PStr "  ")])
  = Ok (PDict [("handle", PStr "  ")], false).
Proof. vm_compute. reflexivity. Qed.

(** * More on the loader *)

(** ** Rows without None *)

Lemma dict_set_values (P : pyval → Prop) key value d :
  Forall (fun kv => P kv.2) d → P value → Forall (fun kv => P kv.2) (dict_set key value d).
Proof.
  intros Hd Hv. induction Hd as [|[k v] rest Hk Hrest IH]; simpl.
  - by constructor.
  - simpl in Hk. destruct (String.eqb k key); constructor; simpl; auto.
Qed.

Lemma dict_get_values (P : pyval → Prop) key d v :
  Forall (fun kv => P kv.2) d → dict_get key d = Some v → P v.
Proof.
  intros Hd. induction Hd as [|[k x] rest Hk _ IH]; simpl; [done|].
  destruct (String.eqb k key); [by intros [= <-] | done].
Qed.

Lemma dict_of_zip_strings fieldnames row :
  Forall (fun kv => ∃ s, kv.2 = PStr s) (dict_of_zip fieldnames row).
Proof.
  unfold dict_of_zip.
  assert (∀ l d, Forall (fun kv : string * pyval => ∃ s, kv.2 = PStr s) d →
                 Forall (fun kv : string * pyval => ∃ s, kv.2 = PStr s)
                   (foldl (fun d (kv : string * string) => dict_set kv.1 (PStr kv.2) d) d l))
    as H.
  { induction l as [|kv l IH]; intros d Hd; simpl; [done|].
    apply IH, (dict_set_values (fun v => ∃ s, v = PStr s)); [done | by eexists]. }
  apply H. constructor.
Qed.

Lemma DictReader_row_full fieldnames row :
  (length fieldnames ≤ length row)%nat →
  DictReader_row fieldnames row = dict_of_zip fieldnames row.
Proof. intros H. unfold DictReader_row. by rewrite drop_ge. Qed.

Lemma row_ok_strings row :
  Forall (fun kv => ∃ s, kv.2 = PStr s) row → row_ok row.
Proof.
  intros H. unfold row_ok, row_handle, row_vendor. simpl.
  destruct (dict_get "Handle" row) as [h|] eqn:Eh;
    destruct (dict_get "Vendor" row) as [v|] eqn:Ev;
    try (destruct (dict_get_values (fun v => ∃ s, v = PStr s) _ _ _ H Eh) as [sh ->]);
    try (destruct (dict_get_values (fun v => ∃ s, v = PStr s) _ _ _ H Ev) as [sv ->]);
    simpl; eauto.
Qed.

(** A record is long enough when it has a field for every name of the
    header; an empty record is passed over. *)
Lemma DictReader_full_rows fieldnames data :
  Forall (fun row => (length fieldnames ≤ length row)%nat ∨ row = []) data →
  Forall (fun row => Forall (fun kv => ∃ s, kv.2 = PStr s) row)
         (DictReader (fieldnames :: data)).
Proof.
  intros H. simpl. induction H as [|row rest Hrow _ IH]; simpl; [constructor|].
  destruct row as [|x row]; simpl; [done|].
  constructor; [|done].
  destruct Hrow as [Hlen | [=]].
  rewrite DictReader_row_full by done. apply dict_of_zip_strings.
Qed.

Lemma DictReader_rows_ok fieldnames data :
  Forall (fun row => (length fieldnames ≤ length row)%nat ∨ row = []) data →
  Forall row_ok (DictReader (fieldnames :: data)).
Proof.
  intros H. eapply Forall_impl; [by apply DictReader_full_rows|].
  intros row. apply row_ok_strings.
Qed.

(** X1: when no data record is shorter than the header, the loader returns
    a map: no row raises. *)
Theorem load_records_full_rows fieldnames data :
  Forall (fun row => (length fieldnames ≤ length row)%nat ∨ row = []) data →
  ∃ vendor_map, load_records (fieldnames :: data) = Ok vendor_map.
Proof. intros H. by apply load_rows_total, DictReader_rows_ok. Qed.

Lemma load_records_full_rows_witness :
  ∃ vendor_map,
    load_records [["Title"; "Handle"; "Vendor"];
                  ["Red Hat"; "hat-001"; "Acme"; "surplus"];
                  [];
                  [""; ""; ""]] = Ok vendor_map.
Proof.
  apply (load_records_full_rows ["Title"; "Handle"; "Vendor"]).
  repeat constructor; simpl; lia.
Defined.

(** ** A header without the columns *)

Lemma dict_get_set_absent key key' value d :
  key ≠ key' → dict_get key' d = None → dict_get key' (dict_set key value d) = None.
Proof. intros Hne Hd. by rewrite dict_get_set_ne. Qed.

Lemma DictReader_row_absent key fieldnames row :
  key ∉ fieldnames → dict_get key (DictReader_row fieldnames row) = None.
Proof.
  intros Hkey. unfold DictReader_row, dict_of_zip.
  assert (∀ (l : list string) d, l ⊆ fieldnames → dict_get key d = None →
            dict_get key (foldl (fun d k => dict_set k restval d) d l) = None) as Hfill.
  { induction l as [|k l IH]; intros d Hl Hd; simpl; [done|].
    apply IH; [set_solver|]. apply dict_get_set_absent; [|done].
    intros ->. apply Hkey, Hl. by left. }
  assert (∀ (l : list (string * string)) d, (∀ kv, kv ∈ l → kv.1 ∈ fieldnames) →
            dict_get key d = None →
            dict_get key (foldl (fun d kv => dict_set kv.1 (PStr kv.2) d) d l) = None)
    as Hzip.
  { induction l as [|kv l IH]; intros d Hl Hd; simpl; [done|].
    apply IH; [intros kv' Hin; apply Hl; by right|].
    apply dict_get_set_absent; [|done].
    intros E. apply Hkey. rewrite <- E. apply Hl. by left. }
  apply Hfill; [apply subseteq_drop|].
  apply Hzip; [|done]. intros [k v] Hin. simpl. by eapply elem_of_zip_l.
Qed.

(** X2: when the header lacks the name Handle or the name Vendor, spelled
    so, and no data record is shorter than the header, the loader returns
    the empty map without an error. *)
Theorem load_records_wrong_header fieldnames data :
  "Handle" ∉ fieldnames ∨ "Vendor" ∉ fieldnames →
  Forall (fun row => (length fieldnames ≤ length row)%nat ∨ row = []) data →
  load_records (fieldnames :: data) = Ok ∅.
Proof.
  intros Hcol Hfull. unfold load_records.
  assert (Forall (fun row => load_row ∅ row = Ok ∅) (DictReader (fieldnames :: data))) as H.
  { pose proof (DictReader_full_rows _ _ Hfull) as Hstr.
    assert (∀ row, row ∈ DictReader (fieldnames :: data) →
                   ∃ r, row = DictReader_row fieldnames r) as Hrow.
    { simpl. intros row (r & -> & _)%list_elem_of_fmap. eauto. }
    apply Forall_forall. intros row Hin.
    destruct (Hrow _ Hin) as [r ->].
    rewrite Forall_forall in Hstr.
    destruct (row_ok_strings _ (Hstr _ Hin)) as (h & v & Hh & Hv).
    rewrite (load_row_entry _ _ _ _ Hh Hv).
    assert (h = "" ∨ v = "") as [-> | ->].
    { destruct Hcol as [Hc | Hc].
      - left. unfold row_handle in Hh. simpl in Hh.
        rewrite (DictReader_row_absent _ _ _ Hc) in Hh. by injection Hh as <-.
      - right. unfold row_vendor in Hv. simpl in Hv.
        rewrite (DictReader_row_absent _ _ _ Hc) in Hv. by injection Hv as <-. }
    - done.
    - by rewrite andb_false_r. }
  induction H as [|row rest Hrow _ IH]; simpl; [done|].
  rewrite Hrow. simpl. apply IH.
Qed.

Lemma load_records_wrong_header_witness :
  load_records [["handle"; "Vendor"]; ["hat-001"; "Acme"]; ["cap-002"; "Zenith"]] = Ok ∅.
Proof.
  apply (load_records_wrong_header ["handle"; "Vendor"]).
  - left. intros H. apply list_elem_of_In in H. simpl in H.
    destruct H as [H|[H|[]]]; discriminate.
  - repeat constructor; simpl; lia.
Defined.

(** ** The keys of the loaded map *)

Lemma load_rows_keeps_keys reader vendor_map vendor_map' k :
  load_rows reader vendor_map = Ok vendor_map' →
  is_Some (vendor_map !! k) → is_Some (vendor_map' !! k).
Proof.
  revert vendor_map. induction reader as [|row rest IH]; intros vm; simpl.
  - by intros [= <-].
  - intros H Hk. inv_bind H.
    apply load_row_Ok in Ha as (h & v & _ & _ & ->).
    apply (IH _ H). destruct (truthy h && truthy v); [|done].
    destruct (decide (h = k)) as [->|Hne].
    + rewrite lookup_insert_eq. eauto.
    + by rewrite lookup_insert_ne.
Qed.

(** X3: a handle is a key of the loaded map exactly when some row has it as
    its normalized handle, not empty, together with a vendor that is not
    empty once trimmed. *)
Theorem loaded_keys records vendor_map k :
  load_records records = Ok vendor_map →
  is_Some (vendor_map !! k) ↔
  ∃ row v, row ∈ DictReader records ∧
           row_handle row = Ok k ∧ row_vendor row = Ok v ∧ k ≠ "" ∧ v ≠ "".
Proof.
  intros Hload. split.
  - intros [x Hx]. destruct (load_records_entries _ _ _ _ Hload Hx) as (row & ?).
    exists row, x. done.
  - intros (row & v & Hin & Hh & Hv & Hk & Hne).
    apply list_elem_of_split in Hin as (before & after & Hsplit).
    unfold load_records in Hload. rewrite Hsplit, load_rows_app in Hload.
    inv_bind Hload. simpl in Hload. inv_bind Hload.
    rewrite (load_row_entry _ _ _ _ Hh Hv) in Ha0.
    apply truthy_nonempty in Hk, Hne. rewrite Hk, Hne in Ha0. simpl in Ha0.
    injection Ha0 as <-.
    apply (load_rows_keeps_keys _ _ _ _ Hload). rewrite lookup_insert_eq. eauto.
Qed.

Lemma loaded_keys_witness :
  is_Some (({[ "hat-001" := "Acme" ]} : gmap string string) !! "hat-001") ↔
  ∃ row v, row ∈ DictReader [["Handle"; "Vendor"]; [" Hat-001"; "Acme "]] ∧
           row_handle row = Ok "hat-001" ∧ row_vendor row = Ok v ∧
           "hat-001" ≠ "" ∧ v ≠ "".
Proof.
  apply (loaded_keys [["Handle"; "Vendor"]; [" Hat-001"; "Acme "]]).
  vm_compute. reflexivity.
Defined.

Lemma load_rows_size reader vendor_map vendor_map' :
  load_rows reader vendor_map = Ok vendor_map' →
  (size vendor_map' ≤ size vendor_map + length reader)%nat.
Proof.
  revert vendor_map. induction reader as [|row rest IH]; intros vm; simpl.
  - intros [= <-]. lia.
  - intros H. inv_bind H.
    apply load_row_Ok in Ha as (h & v & _ & _ & ->).
    apply IH in H.
    destruct (truthy h && truthy v); [|lia].
    rewrite map_size_insert in H. destruct (vm !! h); simpl in H; lia.
Qed.

(** X4: the number of entries of the loaded map, which line 25 reports, is
    at most the number of non-empty data records. *)
Theorem loaded_count_bound fieldnames data vendor_map :
  load_records (fieldnames :: data) = Ok vendor_map →
  (size vendor_map ≤ length (List.filter nonblank data))%nat.
Proof.
  intros H. apply load_rows_size in H.
  rewrite map_size_empty in H. simpl in H. by rewrite length_map in H.
Qed.

Lemma loaded_count_bound_witness :
  (size ({[ "hat-001" := "Zenith" ]} : gmap string string)
   ≤ length (List.filter nonblank
               [["hat-001"; "Acme"]; []; ["HAT-001"; "Zenith"]; ["x"; ""]]))%nat.
Proof.
  apply (loaded_count_bound ["Handle"; "Vendor"]).
  vm_compute. reflexivity.
Defined.

(** * More on the update *)

(** X5: the two sides of the join normalize alike.  Once a row with a
    handle and a vendor, neither blank, is loaded, a product whose handle
    differs from the row's only by case and by whitespace around it is given
    the row's trimmed vendor. *)
Theorem row_then_product vendor_map raw_handle raw_vendor fieldnames record d s :
  dict_get "Handle" (DictReader_row fieldnames record) = Some (PStr raw_handle) →
  dict_get "Vendor" (DictReader_row fieldnames record) = Some (PStr raw_vendor) →
  strip (lower raw_handle) ≠ "" → strip raw_vendor ≠ "" →
  dict_get "handle" d = Some (PStr s) →
  strip (lower s) = strip (lower raw_handle) →
  ∃ vendor_map',
    load_row vendor_map (DictReader_row fieldnames record) = Ok vendor_map' ∧
    add_vendor vendor_map' (PDict d) =
      Ok (PDict (dict_set "vendor" (PStr (strip raw_vendor)) d), true).
Proof.
  intros Hh Hv Hne Hnv Hd Hsame.
  assert (row_handle (DictReader_row fieldnames record) = Ok (strip (lower raw_handle))) as Erh.
  { unfold row_handle. simpl. by rewrite Hh. }
  assert (row_vendor (DictReader_row fieldnames record) = Ok (strip raw_vendor)) as Erv.
  { unfold row_vendor. simpl. by rewrite Hv. }
  rewrite (load_row_entry _ _ _ _ Erh Erv).
  apply truthy_nonempty in Hne, Hnv. rewrite Hne, Hnv. simpl.
  eexists. split; [done|].
  assert (product_handle (PDict d) = Ok (strip (lower raw_handle))) as Eph.
  { unfold product_handle. simpl. rewrite Hd. simpl. by rewrite Hsame. }
  rewrite (add_vendor_dict _ _ _ Eph), Hne. by rewrite lookup_insert_eq.
Qed.

Lemma row_then_product_witness :
  ∃ vendor_map',
    load_row ∅ (DictReader_row ["Handle"; "Vendor"] ["abc-123"; " Acme "]) = Ok vendor_map' ∧
    add_vendor vendor_map' (PDict [("handle", PStr " ABC-123 ")]) =
      Ok (PDict (dict_set "vendor" (PStr (strip " Acme ")) [("handle", PStr " ABC-123 ")]),
          true).
Proof.
  apply (row_then_product ∅ "abc-123" " Acme " ["Handle"; "Vendor"] ["abc-123"; " Acme "]
           [("handle", PStr " ABC-123 ")] " ABC-123 ").
  - reflexivity.
  - reflexivity.
  - vm_compute. discriminate.
  - vm_compute. discriminate.
  - reflexivity.
  - reflexivity.
Defined.

(** The steps of the loop, its prints apart: on a catalog whose [products]
    is a list, they raise on no product exactly when every product is an
    object whose handle, if it has one, is a string. *)
Theorem update_catalog_succeeds_iff vendor_map top products :
  dict_get "products" top = Some (PList products) →
  (∃ out, update_catalog vendor_map (PDict top) = Ok out) ↔ Forall product_ok products.
Proof.
  intros Hget. split.
  - intros [[[catalog' u] n] H]. unfold update_catalog in H. simpl in H.
    rewrite Hget in H. simpl in H. inv_bind H. destruct a as [[items' u'] n'].
    apply update_products_Ok in Ha as (Hall & _ & _).
    apply Forall_forall. intros p Hp.
    apply list_elem_of_lookup in Hp as [i Hi].
    destruct (Forall2_lookup_l _ _ _ _ _ Hall Hi) as (p' & _ & Hstep).
    apply add_vendor_Ok in Hstep as (d & h & _ & Hh & _).
    apply product_ok_handle. eauto.
  - intros Hall.
    destruct (update_catalog_steps vendor_map (PDict top) products)
      as (top' & products' & u & n & _ & Hrun & _); [by exists top|].
    eauto.
Qed.

Lemma update_catalog_succeeds_iff_witness :
  (∃ out, update_catalog {[ "hat-001" := "Acme" ]}
            (PDict [("products", PList [PDict [("handle", PInt 7)]])]) = Ok out)
  ↔ Forall product_ok [PDict [("handle", PInt 7)]].
Proof.
  apply (update_catalog_succeeds_iff {[ "hat-001" := "Acme" ]}
           [("products", PList [PDict [("handle", PInt 7)]])]).
  reflexivity.
Defined.

Lemma dict_set_same key value d :
  dict_get key d = Some value → dict_set key value d = d.
Proof.
  induction d as [|[k v] rest IH]; simpl; [done|].
  destruct (String.eqb k key) eqn:E.
  - by intros [= ->].
  - intros H. by rewrite IH.
Qed.

Lemma filter_misses_none vendor_map (products : list pyval) :
  (∀ p, p ∈ products → hit vendor_map p = false) →
  List.filter (hit vendor_map) products = [].
Proof.
  induction products as [|p rest IH]; intros H; simpl; [done|].
  rewrite (H p) by apply list_elem_of_here.
  apply IH. intros q Hq. apply H. by apply list_elem_of_further.
Qed.

Lemma filter_misses_all vendor_map (products : list pyval) :
  (∀ p, p ∈ products → hit vendor_map p = false) →
  List.filter (fun p => negb (hit vendor_map p)) products = products.
Proof.
  induction products as [|p rest IH]; intros H; simpl; [done|].
  rewrite (H p) by apply list_elem_of_here. simpl. f_equal.
  apply IH. intros q Hq. apply H. by apply list_elem_of_further.
Qed.

(** X7: when no product is found in the map, as with an empty map, the
    loop returns the document exactly as it was read, with every product
    counted as not found. *)
Theorem no_match_changes_nothing vendor_map catalog products :
  well_formed catalog products →
  (∀ p, p ∈ products → hit vendor_map p = false) →
  update_catalog vendor_map catalog = Ok (catalog, 0, length products).
Proof.
  intros Hwf Hmiss. pose proof Hwf as (top0 & Htop & Hget & _).
  destruct (update_catalog_steps vendor_map _ _ Hwf)
    as (top & products' & u & n & -> & Hrun & Hall & -> & ->).
  injection Htop as <-.
  assert (products' = products) as ->.
  { apply list_eq. intros i.
    destruct (products !! i) as [p|] eqn:Hi.
    - destruct (Forall2_lookup_l _ _ _ _ _ Hall Hi) as (p' & Hi' & Hstep).
      rewrite Hi'. f_equal.
      rewrite (Hmiss p) in Hstep by (apply list_elem_of_lookup; eauto).
      apply add_vendor_Ok in Hstep as (d & h & _ & _ & Hcase).
      destruct (if truthy h then vendor_map !! h else None); by destruct Hcase.
    - apply lookup_ge_None in Hi. apply lookup_ge_None.
      by rewrite <- (Forall2_length _ _ _ Hall). }
  rewrite Hrun, (dict_set_same _ _ _ Hget).
  by rewrite (filter_misses_none _ _ Hmiss), (filter_misses_all _ _ Hmiss).
Qed.

Lemma hit_empty product : hit ∅ product = false.
Proof.
  unfold hit. destruct (add_vendor ∅ product) as [[p' b]|e] eqn:E; [|done].
  apply add_vendor_Ok in E as (d & h & _ & _ & Hcase).
  rewrite lookup_empty in Hcase. by destruct (truthy h), Hcase.
Qed.

Lemma no_match_changes_nothing_witness :
  update_catalog ∅ example_store = Ok (example_store, 0, length example_store_products).
Proof.
  apply (no_match_changes_nothing ∅ example_store example_store_products).
  - eexists. split; [reflexivity|]. split; [reflexivity|].
    constructor; [|constructor; [|constructor; [|constructor]]].
    + eexists. split; [reflexivity|]. right. eexists. reflexivity.
    + eexists. split; [reflexivity|]. right. eexists. reflexivity.
    + eexists. split; [reflexivity|]. left. reflexivity.
  - intros p _. apply hit_empty.
Defined.

(** X8: where the step writes.  A product that is found keeps its fields in
    their order; a vendor it had is overwritten where it stands, and
    otherwise the vendor becomes its last field. *)
Theorem vendor_field_place vendor_map d product' :
  add_vendor vendor_map (PDict d) = Ok (product', true) →
  ∃ v d',
    product' = PDict d' ∧
    dict_get "vendor" d' = Some (PStr v) ∧
    d'.*1 = match dict_get "vendor" d with
            | Some _ => d.*1
            | None => d.*1 ++ ["vendor"]
            end.
Proof.
  intros H. apply add_vendor_Ok in H as (d0 & h & [= <-] & _ & Hcase).
  destruct (if truthy h then vendor_map !! h else None) as [v|]; [|by destruct Hcase].
  destruct Hcase as [-> _]. exists v, (dict_set "vendor" (PStr v) d).
  split; [done|]. split; [apply dict_get_set_eq | apply dict_set_keys].
Qed.

Lemma vendor_field_place_witness :
  ∃ v d',
    PDict [("handle", PStr "hat-001"); ("vendor", PStr "Old"); ("price", PInt 12)]
      = PDict d' ∧
    dict_get "vendor" d' = Some (PStr v) ∧
    d'.*1 = match dict_get "vendor"
                    [("handle", PStr "hat-001"); ("vendor", PStr "Old"); ("price", PInt 12)]
            with
            | Some _ =>
                [("handle", PStr "hat-001"); ("vendor", PStr "Old"); ("price", PInt 12)].*1
            | None =>
                [("handle", PStr "hat-001"); ("vendor", PStr "Old"); ("price", PInt 12)].*1
                  ++ ["vendor"]
            end.
Proof.
  apply (vendor_field_place {[ "hat-001" := "Old" ]}).
  vm_compute. reflexivity.
Defined.

(** X9: with a map from the loader, the vendor that the step writes is a
    string that is not empty and has no whitespace at either end. *)
Theorem written_vendor_is_trimmed records vendor_map product product' :
  load_records records = Ok vendor_map →
  add_vendor vendor_map product = Ok (product', true) →
  ∃ v, py_get product' "vendor" PNone = Ok (PStr v) ∧ v ≠ "" ∧ strip v = v.
Proof.
  intros Hload H. apply add_vendor_Ok in H as (d & h & -> & _ & Hcase).
  destruct (truthy h); [|by destruct Hcase].
  destruct (vendor_map !! h) as [v|] eqn:E; [|by destruct Hcase].
  destruct Hcase as [-> _]. exists v. simpl. rewrite dict_get_set_eq.
  destruct (load_records_normal _ _ _ _ Hload E) as (_ & _ & _ & ? & ?). done.
Qed.

Lemma written_vendor_is_trimmed_witness :
  ∃ v, py_get (PDict [("handle", PStr "HAT-001"); ("vendor", PStr "Acme")]) "vendor" PNone
         = Ok (PStr v) ∧ v ≠ "" ∧ strip v = v.
Proof.
  apply (written_vendor_is_trimmed [["Handle"; "Vendor"]; ["hat-001"; "  Acme  "]]
           {[ "hat-001" := "Acme" ]} (PDict [("handle", PStr "HAT-001")])).
  - vm_compute. reflexivity.
  - vm_compute. reflexivity.
Defined.

(** ** The lines printed in the loop *)

Lemma line_of_dict d h :
  product_handle (PDict d) = Ok h →
  py_get (PDict d) "title" PNone ≫= (fun title => Ok [(title, h)]) = Ok [line_of (PDict d)].
Proof. intros Hh. unfold line_of. by rewrite Hh. Qed.

(** The loop with its lines is the loop: same products, same counters; and
    from the counters as they stand, the lines are those of the first
    products not found, as many as are left of five. *)
Lemma update_products_diag_lines vendor_map products u0 n0 products' u n lines :
  update_products_diag vendor_map products u0 n0 = Ok (products', u, n, lines) →
  update_products vendor_map products u0 n0 = Ok (products', u, n) ∧
  lines = take (5 - n0) (missed vendor_map products).
Proof.
  revert u0 n0 products' u n lines.
  induction products as [|p rest IH]; intros u0 n0 products' u n lines; simpl.
  - intros [= <- <- <- <-]. unfold missed. simpl. by rewrite take_nil.
  - intros H. inv_bind H. rename a into h. inv_bind H. destruct a as [p' b].
    assert (hit vendor_map p = b) as Hb by (unfold hit; by rewrite Ha0).
    destruct (product_handle_dict _ _ Ha) as (d & -> & _).
    unfold missed. simpl. rewrite Hb, Ha0.
    destruct b; simpl.
    + inv_bind H. destruct a as [[[rest' u1] n1] lines1]. injection H as <- <- <- <-.
      apply IH in Ha1 as [-> ->]. done.
    + inv_bind H. rename a into line. inv_bind H.
      destruct a as [[[rest' u1] n1] lines1]. injection H as <- <- <- <-.
      apply IH in Ha2 as [-> ->]. split; [done|].
      destruct (n0 <=? 4)%nat eqn:E.
      * rewrite (line_of_dict _ _ Ha) in Ha1. injection Ha1 as <-.
        apply Nat.leb_le in E.
        replace (5 - n0) with (S (5 - S n0)) by lia. done.
      * injection Ha1 as <-. apply Nat.leb_gt in E.
        replace (5 - n0) with 0 by lia. replace (5 - S n0) with 0 by lia. done.
Qed.

Lemma update_products_diag_total vendor_map products u0 n0 products' u n :
  update_products vendor_map products u0 n0 = Ok (products', u, n) →
  ∃ lines, update_products_diag vendor_map products u0 n0 = Ok (products', u, n, lines).
Proof.
  revert u0 n0 products' u n.
  induction products as [|p rest IH]; intros u0 n0 products' u n; simpl.
  - intros [= <- <- <-]. eauto.
  - intros H. inv_bind H. destruct a as [p' b]. inv_bind H.
    destruct a as [[rest' u1] n1]. injection H as <- <- <-.
    destruct (add_vendor_Ok _ _ _ _ Ha) as (d & h & -> & Hh & _).
    rewrite Hh, Ha. simpl. destruct b.
    + destruct (IH _ _ _ _ _ Ha0) as [lines ->]. simpl. eauto.
    + destruct (IH _ _ _ _ _ Ha0) as [lines Hl].
      destruct (n0 <=? 4)%nat; simpl; rewrite Hl; simpl; eauto.
Qed.

(** X10: the loop prints a line for the first five products it does not
    find and for no other: whenever the loop ends without an exception, the
    loop with its lines ends with the same products and counters, and its
    lines are those of the first five products not found, in the order of
    the catalog, so as many as there are products not found, up to five. *)
Theorem diagnostics_first_five vendor_map products products' u n :
  update_products vendor_map products 0 0 = Ok (products', u, n) →
  ∃ lines,
    update_products_diag vendor_map products 0 0 = Ok (products', u, n, lines) ∧
    lines = take 5 (missed vendor_map products) ∧
    length lines = Nat.min 5 n.
Proof.
  intros Hloop.
  destruct (update_products_diag_total _ _ _ _ _ _ _ Hloop) as [lines H].
  exists lines. split; [done|].
  apply update_products_diag_lines in H as [_ ->]. split; [done|].
  apply update_products_Ok in Hloop as (_ & _ & ->).
  unfold missed. by rewrite length_take, length_map.
Qed.

Lemma diagnostics_first_five_witness :
  ∃ lines,
    update_products_diag ∅
      (replicate 7 (PDict [("title", PStr "Cap"); ("handle", PStr " C-1 ")])) 0 0
    = Ok (replicate 7 (PDict [("title", PStr "Cap"); ("handle", PStr " C-1 ")]), 0, 7, lines) ∧
    lines = take 5 (missed ∅ (replicate 7 (PDict [("title", PStr "Cap");
                                                  ("handle", PStr " C-1 ")]))) ∧
    length lines = Nat.min 5 7.
Proof.
  apply (diagnostics_first_five ∅).
  vm_compute. reflexivity.
Defined.

Example diagnostics_example :
  update_products_diag {[ "hat-001" := "Acme" ]} example_store_products 0 0
  = Ok ([PDict [("handle", PStr " HAT-001 "); ("vendor", PStr "Acme"); ("price", PInt 12)];
         PDict [("handle", PStr "   "); ("vendor", PStr "Kept")];
         PDict [("title", PStr "No handle")]],
        1, 2,
        [(PNone, ""); (PStr "No handle", "")]).
Proof. vm_compute. reflexivity. Qed.

(** * More on the run *)

(** ** The backup path *)

Lemma append_inj_r (s t t' : string) : s +:+ t = s +:+ t' → t = t'.
Proof. induction s as [|c s IH]; simpl; [done|]. intros [= H]. by apply IH. Qed.

Lemma to_int_proper z : Z.to_int z ≠ Decimal.Pos Decimal.Nil ∧ Z.to_int z ≠ Decimal.Neg Decimal.Nil.
Proof.
  destruct z as [|p|p]; simpl; split; try done;
    intros [= H]; by apply (DecimalPos.Unsigned.to_uint_nonnil p).
Qed.

Lemma decimal_inj z z' :
  NilZero.string_of_int (Z.to_int z) = NilZero.string_of_int (Z.to_int z') → z = z'.
Proof.
  intros H. apply DecimalZ.to_int_inj.
  destruct (to_int_proper z) as [Hp Hn]. destruct (to_int_proper z') as [Hp' Hn'].
  pose proof (NilZero.isi _ Hp Hn) as E. rewrite H in E.
  rewrite (NilZero.isi _ Hp' Hn') in E. by injection E.
Qed.

Lemma backup_path_inj env env' : backup_path env = backup_path env' → now env = now env'.
Proof.
  unfold backup_path. intros H.
  by apply append_inj_r, append_inj_r, decimal_inj in H.
Qed.

Lemma backup_path_not_csv env : backup_path env ≠ csv_path.
Proof. unfold backup_path. simpl. discriminate. Qed.

(** A second run of the update on its own result, as a lemma for the runs
    below. *)
Lemma update_catalog_again vendor_map catalog catalog' u n :
  update_catalog vendor_map catalog = Ok (catalog', u, n) →
  update_catalog vendor_map catalog' = Ok (catalog', u, n).
Proof.
  intros H. pose proof H as H'. unfold update_catalog in H'.
  inv_bind H'. rename a into products. inv_bind H'. rename a into items.
  inv_bind H'. destruct a as [[items' u'] n'].
  destruct catalog as [| | | | | |top]; try done. simpl in Ha.
  destruct (dict_get "products" top) as [v|] eqn:Hget; [|done]. injection Ha as <-.
  destruct v as [| | | | |ps|d].
  1-5, 7: injection H' as <- <- <-; exact H.
  injection H' as <- <- <-. simpl in Ha0. injection Ha0 as <-.
  unfold update_catalog. simpl. rewrite dict_get_set_eq. simpl.
  rewrite (update_products_again _ _ _ _ _ _ _ Ha1). simpl.
  by rewrite dict_set_idem.
Qed.

Section Reruns.

Variable csv_reader : list byte -> list (list string) * option exn.
Variable json_load : list byte -> result pyval.
Variable json_dump : pyval -> list byte.

(** The first half of main reads and writes nothing back: its result is a
    function of the two input files. *)
Lemma prepare_result w :
  prepare csv_reader json_load w =
    (match fs w !! csv_path with
     | None => Raise (FileNotFoundError csv_path)
     | Some table =>
         vendor_map ← load_records (csv_reader (data table)).1;
         match (csv_reader (data table)).2 with
         | Some e => Raise e
         | None =>
             match fs w !! catalog_path with
             | None => Raise (FileNotFoundError catalog_path)
             | Some f => catalog ← json_load (data f); update_catalog vendor_map catalog
             end
         end
     end, w).
Proof.
  unfold prepare, load_vendor_map.
  unfold mbind at 1 2 3 4 5, io_bind, mret, io_ret, lift, read_file.
  destruct (fs w !! csv_path) as [table|]; simpl; [|done].
  destruct (load_records _) as [vendor_map|e]; simpl; [|done].
  destruct (csv_reader _).2 as [e|]; simpl; [done|].
  destruct (fs w !! catalog_path) as [f|]; simpl; [|done].
  destruct (json_load _) as [catalog|e]; simpl; done.
Qed.

(** main is its first half followed by the copy and the write. *)
Lemma main_prepare env w :
  main csv_reader json_load json_dump env w =
    match (prepare csv_reader json_load w).1 with
    | Raise e => (Raise e, w)
    | Ok (catalog', u, n) =>
        (_ ← copy2 env catalog_path (backup_path env);
         _ ← write_file env catalog_path (json_dump catalog');
         mret (u, n)) w
    end.
Proof.
  unfold main, prepare, load_vendor_map.
  unfold mbind, io_bind, mret, io_ret, lift, read_file. simpl.
  destruct (fs w !! csv_path) as [table|]; simpl; [|done].
  destruct (load_records _) as [vendor_map|e]; simpl; [|done].
  destruct (csv_reader _).2 as [e|]; simpl; [done|].
  destruct (fs w !! catalog_path) as [f|]; simpl; [|done].
  destruct (json_load _) as [catalog|e]; simpl; [|done].
  destruct (update_catalog _ _) as [[[catalog' u] n]|e]; simpl; done.
Qed.

Lemma csv_path_not_catalog : csv_path ≠ catalog_path.
Proof. discriminate. Qed.

(** What a run leaves alone. *)
Lemma run_frame env files r w' path :
  run csv_reader json_load json_dump env files = (r, w') →
  path ≠ catalog_path → path ≠ backup_path env →
  fs w' !! path = files !! path.
Proof.
  intros H Hc Hb.
  apply run_course in H as [[_ ->] | (f & catalog' & u & n & Hf & _ & H)]; [done|].
  destruct (copy_outcome env) as [| |k].
  - destruct (write_outcome env); destruct H as [_ ->]; simpl;
      by rewrite ?lookup_insert_ne.
  - by destruct H as [_ ->].
  - destruct H as [_ ->]. simpl. by rewrite lookup_insert_ne.
Qed.

(** A run that goes through, from the result of its first half. *)
Lemma run_from_prepare env files catalog' u n f :
  (prepare csv_reader json_load (World files [])).1 = Ok (catalog', u, n) →
  files !! catalog_path = Some f →
  copy_outcome env = Done → write_outcome env = Done →
  run csv_reader json_load json_dump env files =
    (Ok (u, n),
     World (<[catalog_path := File (json_dump catalog') (mode f) (now env)]>
              (<[backup_path env := f]> files))
           [Copy catalog_path (backup_path env) Done; Write catalog_path Done]).
Proof.
  intros Hprep Hf Hcopy Hwrite. unfold run. rewrite main_prepare, Hprep.
  unfold mbind, io_bind, mret, io_ret, copy2, write_file, mode_at. simpl.
  rewrite Hf, Hcopy. simpl. rewrite Hwrite. simpl.
  rewrite lookup_insert_ne by apply backup_path_fresh. by rewrite Hf.
Qed.

(** X11: whatever the run does and however it ends, it changes no file
    other than the catalog and the backup; the vendor file in particular is
    as it was. *)
Theorem run_leaves_other_files env files r w' :
  run csv_reader json_load json_dump env files = (r, w') →
  fs w' !! csv_path = files !! csv_path ∧
  ∀ path, path ≠ catalog_path → path ≠ backup_path env → fs w' !! path = files !! path.
Proof.
  intros H. split.
  - apply (run_frame _ _ _ _ _ H); [apply csv_path_not_catalog|].
    intros E. by apply (backup_path_not_csv env).
  - intros path. by apply (run_frame env files r w').
Qed.



(** The run without its prints, from end to end: with a vendor file that
    the reader reads to its end and in which no data record is shorter than
    the header, a catalog file that parses to a catalog of the data model,
    and a copy and a write that go through. *)
Theorem run_succeeds env files table fieldnames rows f catalog products :
  files !! csv_path = Some table →
  csv_reader (data table) = (fieldnames :: rows, None) →
  Forall (fun row => (length fieldnames ≤ length row)%nat ∨ row = []) rows →
  files !! catalog_path = Some f →
  json_load (data f) = Ok catalog →
  well_formed catalog products →
  copy_outcome env = Done → write_outcome env = Done →
  ∃ vendor_map catalog' u n,
    load_records (fieldnames :: rows) = Ok vendor_map ∧
    update_catalog vendor_map catalog = Ok (catalog', u, n) ∧
    u + n = length products ∧
    run csv_reader json_load json_dump env files =
      (Ok (u, n),
       World (<[catalog_path := File (json_dump catalog') (mode f) (now env)]>
                (<[backup_path env := f]> files))
             [Copy catalog_path (backup_path env) Done; Write catalog_path Done]).
Proof.
  intros Hcsv Hread Hrows Hcat Hparse Hwf Hcopy Hwrite.
  destruct (load_rows_total _ ∅ (DictReader_rows_ok _ _ Hrows)) as [vendor_map Hload].
  destruct (update_catalog_steps vendor_map _ _ Hwf)
    as (top & products' & u & n & -> & Hrun & _ & Hu & Hn).
  exists vendor_map, (PDict (dict_set "products" (PList products') top)), u, n.
  split; [done|]. split; [done|].
  split; [rewrite Hu, Hn; apply List.filter_length|].
  apply run_from_prepare; try done.
  rewrite prepare_result. simpl. rewrite Hcsv, Hread. simpl.
  unfold load_records in Hload |- *. rewrite Hload. simpl.
  rewrite Hcat, Hparse. simpl. done.
Qed.

(** X15: running again.  When the parser reads the printed document back
    as it was, a second run on the files that a first run left writes the
    same bytes to the catalog and reports the same counters. *)
Theorem rerun_writes_same env env2 files catalog' u n :
  (prepare csv_reader json_load (World files [])).1 = Ok (catalog', u, n) →
  json_load (json_dump catalog') = Ok catalog' →
  copy_outcome env = Done → write_outcome env = Done →
  copy_outcome env2 = Done → write_outcome env2 = Done →
  ∃ w1 w2,
    run csv_reader json_load json_dump env files = (Ok (u, n), w1) ∧
    run csv_reader json_load json_dump env2 (fs w1) = (Ok (u, n), w2) ∧
    data <$> fs w1 !! catalog_path = Some (json_dump catalog') ∧
    data <$> fs w2 !! catalog_path = Some (json_dump catalog').
Proof.
  intros Hprep Hround Hcopy Hwrite Hcopy2 Hwrite2.
  pose proof Hprep as Hparts. rewrite prepare_result in Hparts. simpl in Hparts.
  destruct (files !! csv_path) as [table|] eqn:Hcsv; [|done].
  inv_bind Hparts. rename a into vendor_map.
  destruct (csv_reader (data table)).2 as [e|] eqn:Hstop; [done|].
  destruct (files !! catalog_path) as [f|] eqn:Hcat; [|done].
  inv_bind Hparts. rename a into catalog.
  pose proof (run_from_prepare env files _ _ _ f Hprep Hcat Hcopy Hwrite) as Hrun1.
  eexists _, _. split; [exact Hrun1|]. simpl.
  set (written := File (json_dump catalog') (mode f) (now env)).
  set (files1 := <[catalog_path := written]> (<[backup_path env := f]> files)).
  assert (files1 !! catalog_path = Some written) as Hcat1 by apply lookup_insert_eq.
  assert ((prepare csv_reader json_load (World files1 [])).1 = Ok (catalog', u, n)) as Hprep1.
  { rewrite prepare_result. simpl. rewrite Hcat1.
    unfold files1. rewrite lookup_insert_ne by (intros E; by apply csv_path_not_catalog).
    rewrite lookup_insert_ne by apply backup_path_not_csv.
    rewrite Hcsv, Ha. simpl. rewrite Hstop. simpl. rewrite Hround. simpl.
    by eapply update_catalog_again. }
  rewrite (run_from_prepare env2 files1 _ _ _ written Hprep1 Hcat1 Hcopy2 Hwrite2).
  split; [done|]. simpl. rewrite Hcat1. simpl. by rewrite lookup_insert_eq.
Qed.

(** X16: backups of different seconds stand side by side.  After a run that
    ended well, a later run at another second, however it ends, leaves the
    first backup as the original catalog file. *)
Theorem earlier_backup_survives env env2 files counts w1 r2 w2 :
  run csv_reader json_load json_dump env files = (Ok counts, w1) →
  run csv_reader json_load json_dump env2 (fs w1) = (r2, w2) →
  now env2 ≠ now env →
  ∃ f, files !! catalog_path = Some f ∧ fs w2 !! backup_path env = Some f.
Proof.
  intros H1 H2 Hnow.
  apply run_course in H1 as [[[e [=]] _] | (f & catalog' & u & n & Hf & _ & H1)].
  exists f. split; [done|].
  rewrite (run_frame _ _ _ _ _ H2).
  - destruct (copy_outcome env); [|by destruct H1|by destruct H1].
    destruct (write_outcome env); destruct H1 as [[=] ->]. simpl.
    rewrite lookup_insert_ne by (intros E; by apply (backup_path_fresh env)).
    apply lookup_insert_eq.
  - apply backup_path_fresh.
  - intros E. apply backup_path_inj in E. done.
Qed.


End Reruns.

Lemma run_leaves_other_files_witness :
  let w' := (run example_csv_reader example_json_load example_json_dump
                 (example_env Done (Torn 9)) example_fs).2 in
  fs w' !! csv_path = example_fs !! csv_path ∧
  ∀ path, path ≠ catalog_path → path ≠ backup_path (example_env Done (Torn 9)) →
          fs w' !! path = example_fs !! path.
Proof.
  intros w'.
  apply (run_leaves_other_files example_csv_reader example_json_load example_json_dump
           (example_env Done (Torn 9)) example_fs
           (Raise (OSError "valid_image_catalog.json")) w').
  vm_compute. reflexivity.
Defined.



Lemma run_succeeds_witness :
  ∃ vendor_map catalog' u n,
    load_records [["Handle"; "Vendor"]; ["hat-001"; "Acme"]] = Ok vendor_map ∧
    update_catalog vendor_map example_catalog = Ok (catalog', u, n) ∧
    u + n = length [PDict [("handle", PStr "Hat-001"); ("title", PStr "Red Hat")]] ∧
    run example_csv_reader example_json_load example_json_dump
        (example_env Done Done) example_fs =
      (Ok (u, n),
       World (<[catalog_path := File (example_json_dump catalog')
                                     (mode (File example_json 420 1699990001))
                                     (now (example_env Done Done))]>
                (<[backup_path (example_env Done Done) := File example_json 420 1699990001]>
                   example_fs))
             [Copy catalog_path (backup_path (example_env Done Done)) Done;
              Write catalog_path Done]).
Proof.
  apply (run_succeeds example_csv_reader example_json_load example_json_dump
           (example_env Done Done) example_fs (File example_csv 420 1699990000)).
  - reflexivity.
  - vm_compute. reflexivity.
  - repeat constructor; simpl; lia.
  - reflexivity.
  - vm_compute. reflexivity.
  - eexists. split; [reflexivity|]. split; [reflexivity|].
    constructor; [|constructor]. eexists. split; [reflexivity|]. right. eexists. reflexivity.
  - reflexivity.
  - reflexivity.
Defined.

Lemma rerun_writes_same_witness :
  ∃ w1 w2,
    run example_csv_reader example_json_load_again example_json_dump
        (example_env Done Done) example_fs = (Ok (1, 0), w1) ∧
    run example_csv_reader example_json_load_again example_json_dump
        example_later (fs w1) = (Ok (1, 0), w2) ∧
    data <$> fs w1 !! catalog_path = Some (example_json_dump example_catalog_out) ∧
    data <$> fs w2 !! catalog_path = Some (example_json_dump example_catalog_out).
Proof.
  apply (rerun_writes_same example_csv_reader example_json_load_again example_json_dump
           (example_env Done Done) example_later example_fs example_catalog_out 1 0).
  - vm_compute. reflexivity.
  - vm_compute. reflexivity.
  - reflexivity.
  - reflexivity.
  - reflexivity.
  - reflexivity.
Defined.

Lemma earlier_backup_survives_witness :
  let first := run example_csv_reader example_json_load_again example_json_dump
                   (example_env Done Done) example_fs in
  let second := run example_csv_reader example_json_load_again example_json_dump
                    example_later (fs first.2) in
  ∃ f, example_fs !! catalog_path = Some f ∧
       fs second.2 !! backup_path (example_env Done Done) = Some f.
Proof.
  intros first second.
  apply (earlier_backup_survives example_csv_reader example_json_load_again example_json_dump
           (example_env Done Done) example_later example_fs (1, 0) first.2 second.1 second.2).
  - vm_compute. reflexivity.
  - vm_compute. reflexivity.
  - discriminate.
Defined.


(** After the two runs of the same second the backup holds the updated
    catalog: the bytes of the original are in no file. *)
Example same_second_loses_original :
  let first := run example_csv_reader example_json_load_again example_json_dump
                   (example_env Done Done) example_fs in
  let second := run example_csv_reader example_json_load_again example_json_dump
                    (example_env Done Done) (fs first.2) in
  data <$> fs first.2 !! "valid_image_catalog.json.backup-1700000000" = Some example_json ∧
  data <$> fs second.2 !! "valid_image_catalog.json.backup-1700000000" = Some example_json_out ∧
  data <$> fs second.2 !! catalog_path = Some example_json_out.
Proof. vm_compute. done. Qed.

(** X18: a write that fails can be undone.  When the write to the catalog is
    refused or breaks off, the run ends with that error, the backup holds the
    catalog file as it was before the run, and a refused write has left the
    catalog file itself as it was. *)
Theorem failed_write_is_recoverable csv_reader json_load json_dump env files r w' o :
  run csv_reader json_load json_dump env files = (r, w') →
  In (Write catalog_path o) (trace w') → o ≠ Done →
  r = Raise (OSError catalog_path) ∧
  ∃ f, files !! catalog_path = Some f ∧
       fs w' !! backup_path env = Some f ∧
       (o = Denied → fs w' !! catalog_path = Some f).
Proof.
  intros H Hin Ho.
  apply run_course in H as [[_ ->] | (f & catalog' & u & n & Hf & _ & H)]; [done|].
  destruct (copy_outcome env) as [| |k];
    [| destruct H as [_ ->]; by destruct Hin as [[=]|[]]
     | destruct H as [_ ->]; by destruct Hin as [[=]|[]] ].
  destruct (write_outcome env) as [| |k] eqn:Ew; destruct H as [-> ->];
    simpl in Hin; destruct Hin as [[=]|[[= <-]|[]]]; [done| |].
  - split; [done|]. exists f. split; [done|]. simpl.
    split; [apply lookup_insert_eq|]. intros _.
    by rewrite lookup_insert_ne by apply backup_path_fresh.
  - split; [done|]. exists f. split; [done|]. simpl. split; [|done].
    rewrite lookup_insert_ne by (intros E; by apply (backup_path_fresh env)).
    apply lookup_insert_eq.
Qed.

Lemma failed_write_is_recoverable_witness :
  let end_ := run example_csv_reader example_json_load example_json_dump
                  (example_env Done Denied) example_fs in
  end_.1 = Raise (OSError catalog_path) ∧
  ∃ f, example_fs !! catalog_path = Some f ∧
       fs end_.2 !! backup_path (example_env Done Denied) = Some f ∧
       (Denied = Denied → fs end_.2 !! catalog_path = Some f).
Proof.
  intros end_.
  apply (failed_write_is_recoverable example_csv_reader example_json_load example_json_dump
           (example_env Done Denied) example_fs end_.1 end_.2 Denied).
  - vm_compute. reflexivity.
  - vm_compute. auto.
  - discriminate.
Defined.

(** * The script with its console *)

Lemma print_taken console m s :
  console m = true → print console m s = (Returned tt, (s.1, s.2 ++ [m])).
Proof. intros H. unfold print. by rewrite H. Qed.

Lemma silent_lift_Ok {A} (a : A) s : silent (lift (Ok a)) s = (Returned a, s).
Proof. by destruct s. Qed.

(** The loop with its prints returns what the loop with its lines returns,
    once the console has taken each line. *)
Lemma update_products_print_taken console vendor_map products u0 n0 products' u n lines s :
  update_products_diag vendor_map products u0 n0 = Ok (products', u, n, lines) →
  Forall (fun line => console (line_message line) = true) lines →
  update_products_print console vendor_map products u0 n0 s
  = (Returned (products', u, n), (s.1, s.2 ++ map line_message lines)).
Proof.
  revert u0 n0 products' u n lines s.
  induction products as [|p rest IH]; intros u0 n0 products' u n lines s; simpl.
  - intros [= <- <- <- <-] _. destruct s. simpl. by rewrite app_nil_r.
  - intros H Hlines. inv_bind H. rename a into h. inv_bind H. destruct a as [p' b].
    unfold mbind at 1, cio_bind. rewrite Ha, silent_lift_Ok.
    unfold mbind at 1, cio_bind. rewrite Ha0, silent_lift_Ok.
    destruct b.
    + inv_bind H. destruct a as [[[rest' u1] n1] lines1]. injection H as <- <- <- <-.
      unfold mbind at 1, cio_bind. by rewrite (IH _ _ _ _ _ _ s Ha1 Hlines).
    + inv_bind H. rename a into line. inv_bind H.
      destruct a as [[[rest' u1] n1] lines1]. injection H as <- <- <- <-.
      apply Forall_app in Hlines as [Hline Hrest].
      unfold mbind at 1, cio_bind.
      destruct (n0 <=? 4)%nat.
      * inv_bind Ha1. rename a into title. injection Ha1 as <-.
        apply List.Forall_inv in Hline.
        unfold mbind at 1, cio_bind. rewrite Ha3, silent_lift_Ok.
        rewrite (print_taken _ _ _ Hline).
        unfold mbind at 1, cio_bind.
        rewrite (IH _ _ _ _ _ _ _ Ha2 Hrest). simpl.
        by rewrite <- app_assoc.
      * injection Ha1 as <-. unfold mret at 1, cio_ret.
        unfold mbind at 1, cio_bind.
        by rewrite (IH _ _ _ _ _ _ _ Ha2 Hrest).
Qed.

Lemma silent_lift_Raise {A} e s : silent (lift (@Raise A e)) s = (Raised (Exn e), s).
Proof. by destruct s. Qed.

(** And when the loop with its prints returns, the console has taken each
    line of the loop with its lines. *)
Lemma update_products_print_Returned console vendor_map products u0 n0 s out s' :
  update_products_print console vendor_map products u0 n0 s = (Returned out, s') →
  ∃ lines,
    update_products_diag vendor_map products u0 n0 = Ok (out, lines) ∧
    Forall (fun line => console (line_message line) = true) lines ∧
    s' = (s.1, s.2 ++ map line_message lines).
Proof.
  revert u0 n0 s out s'.
  induction products as [|p rest IH]; intros u0 n0 s out s'; simpl.
  - intros [= <- <-]. exists []. destruct s. simpl. by rewrite app_nil_r.
  - unfold mbind at 1, cio_bind.
    destruct (product_handle p) as [h|e]; [|by rewrite silent_lift_Raise].
    rewrite silent_lift_Ok. unfold mbind at 1, cio_bind.
    destruct (add_vendor vendor_map p) as [[p' b]|e]; [|by rewrite silent_lift_Raise].
    rewrite silent_lift_Ok. simpl. destruct b.
    + unfold mbind at 1, cio_bind.
      destruct (update_products_print console vendor_map rest (S u0) n0 s)
        as [[[[rest' u1] n1]|r] s1] eqn:E; [|done].
      intros [= <- <-]. apply IH in E as (lines & -> & Hlines & ->).
      exists lines. done.
    + unfold mbind at 1, cio_bind.
      destruct (n0 <=? 4)%nat.
      * unfold mbind at 1, cio_bind.
        destruct (py_get p "title" PNone) as [title|e]; [|by rewrite silent_lift_Raise].
        rewrite silent_lift_Ok. unfold print.
        destruct (console (NoVendor title h)) eqn:Etaken; [|done].
        unfold mbind at 1, cio_bind.
        destruct (update_products_print console vendor_map rest u0 (S n0) _)
          as [[[[rest' u1] n1]|r] s1] eqn:E; [|done].
        intros [= <- <-]. apply IH in E as (lines & -> & Hlines & ->).
        exists ((title, h) :: lines). simpl.
        split; [done|]. split; [by constructor|]. by rewrite <- app_assoc.
      * unfold mret at 1, cio_ret. unfold mbind at 1, cio_bind.
        destruct (update_products_print console vendor_map rest u0 (S n0) s)
          as [[[[rest' u1] n1]|r] s1] eqn:E; [|done].
        intros [= <- <-]. apply IH in E as (lines & -> & Hlines & ->).
        exists lines. done.
Qed.

Lemma update_products_ok_products vendor_map products u0 n0 out :
  update_products vendor_map products u0 n0 = Ok out → Forall product_ok products.
Proof.
  destruct out as [[products' u] n]. intros H.
  apply update_products_Ok in H as (Hall & _ & _).
  apply Forall_forall. intros p Hp.
  apply list_elem_of_lookup in Hp as [i Hi].
  destruct (Forall2_lookup_l _ _ _ _ _ Hall Hi) as (p' & _ & Hstep).
  apply add_vendor_Ok in Hstep as (d & h & _ & Hh & _).
  apply product_ok_handle. eauto.
Qed.

Lemma update_catalog_print_list console vendor_map top products s :
  dict_get "products" top = Some (PList products) →
  update_catalog_print console vendor_map (PDict top) s =
    match update_products_print console vendor_map products 0 0 s with
    | (Returned (items', u, n), s') =>
        (Returned (PDict (dict_set "products" (PList items') top), u, n), s')
    | (Raised r, s') => (Raised r, s')
    end.
Proof.
  intros Hget. unfold update_catalog_print. simpl. rewrite Hget.
  unfold mbind, cio_bind. rewrite silent_lift_Ok. cbn [py_iter]. rewrite silent_lift_Ok.
  destruct (update_products_print console vendor_map products 0 0 s)
    as [[[[items' u] n]|r] s']; done.
Qed.

(** X6: on a catalog whose [products] is a list, the loop with its prints
    ends without an exception exactly when every product is an object whose
    handle, if it has one, is a string, and the console takes the line of
    each of the first five products not found. *)
Theorem update_catalog_print_returns_iff console vendor_map top products s :
  dict_get "products" top = Some (PList products) →
  (∃ out s', update_catalog_print console vendor_map (PDict top) s = (Returned out, s')) ↔
  Forall product_ok products ∧
  Forall (fun line => console (line_message line) = true)
         (take 5 (missed vendor_map products)).
Proof.
  intros Hget. split.
  - intros (out & s' & H). rewrite (update_catalog_print_list _ _ _ _ _ Hget) in H.
    destruct (update_products_print console vendor_map products 0 0 s)
      as [[out'|r] s1] eqn:E; [|done].
    apply update_products_print_Returned in E as (lines & Hdiag & Hlines & _).
    destruct out' as [[products' u] n].
    apply update_products_diag_lines in Hdiag as [Hloop ->].
    split; [by eapply update_products_ok_products | done].
  - intros [Hok Hlines]. rewrite (update_catalog_print_list _ _ _ _ _ Hget).
    destruct (update_products_total vendor_map products 0 0 Hok) as (products' & u & n & Hloop).
    destruct (update_products_diag_total _ _ _ _ _ _ _ Hloop) as [lines Hdiag].
    pose proof (update_products_diag_lines _ _ _ _ _ _ _ _ Hdiag) as [_ ->].
    rewrite (update_products_print_taken _ _ _ _ _ _ _ _ _ s Hdiag Hlines).
    eauto.
Qed.

(** Four products that are not found: the console refuses the line of the
    third, and the loop ends there with UnicodeEncodeError. *)
Lemma update_catalog_print_returns_iff_witness :
  update_catalog_print example_console ∅
    (PDict [("products",
             PList [PDict [("handle", PStr "a")];
                    PDict [("title", PStr "Plain"); ("handle", PStr "b")];
                    PDict [("title", PStr "Odd"); ("handle", PStr "C ")];
                    PDict [("handle", PStr "d")]])])
    (World ∅ [], [Adding])
  = (Raised (UnicodeEncodeError (NoVendor (PStr "Odd") "c")),
     (World ∅ [], [Adding; NoVendor PNone "a"; NoVendor (PStr "Plain") "b"])) ∧
  ((∃ out s',
      update_catalog_print example_console ∅
        (PDict [("products",
                 PList [PDict [("handle", PStr "a")];
                        PDict [("title", PStr "Plain"); ("handle", PStr "b")];
                        PDict [("title", PStr "Odd"); ("handle", PStr "C ")];
                        PDict [("handle", PStr "d")]])])
        (World ∅ [], [Adding]) = (Returned out, s')) ↔
   Forall product_ok
     [PDict [("handle", PStr "a")];
      PDict [("title", PStr "Plain"); ("handle", PStr "b")];
      PDict [("title", PStr "Odd"); ("handle", PStr "C ")];
      PDict [("handle", PStr "d")]] ∧
   Forall (fun line => example_console (line_message line) = true)
     (take 5 (missed ∅
                [PDict [("handle", PStr "a")];
                 PDict [("title", PStr "Plain"); ("handle", PStr "b")];
                 PDict [("title", PStr "Odd"); ("handle", PStr "C ")];
                 PDict [("handle", PStr "d")]]))).
Proof.
  split; [vm_compute; reflexivity|].
  apply (update_catalog_print_returns_iff example_console ∅).
  reflexivity.
Defined.

(** ** The run with its console *)

Lemma silent_Ok {A} (step : io A) s a w' :
  step s.1 = (Ok a, w') → silent step s = (Returned a, (w', s.2)).
Proof. intros H. unfold silent. by rewrite H. Qed.

Lemma load_vendor_map_Ok csv_reader path w table vendor_map :
  fs w !! path = Some table →
  load_records (csv_reader (data table)).1 = Ok vendor_map →
  (csv_reader (data table)).2 = None →
  load_vendor_map csv_reader path w = (Ok vendor_map, w).
Proof.
  intros Hf Hload Hstop. unfold load_vendor_map.
  unfold mbind, io_bind, mret, io_ret, lift, read_file.
  by rewrite Hf, Hload, Hstop.
Qed.

Lemma read_file_Ok path w f : fs w !! path = Some f → read_file path w = (Ok (data f), w).
Proof. intros H. unfold read_file. by rewrite H. Qed.

Lemma copy2_Done env src dst w f :
  fs w !! src = Some f → copy_outcome env = Done →
  copy2 env src dst w = (Ok tt, World (<[dst := f]> (fs w)) (trace w ++ [Copy src dst Done])).
Proof. intros Hf Hcopy. unfold copy2. by rewrite Hf, Hcopy. Qed.

Lemma write_file_Done env path text w :
  write_outcome env = Done →
  write_file env path text w =
    (Ok tt, World (<[path := File text (mode_at env w path) (now env)]> (fs w))
                  (trace w ++ [Write path Done])).
Proof. intros Hwrite. unfold write_file. by rewrite Hwrite. Qed.

(** X14: the run from end to end.  With a console that takes every message,
    a vendor file that the reader reads to its end and in which no data
    record is shorter than the header, a catalog file that parses to a
    catalog of the data model, and a copy and a write that go through, the
    run ends well: the backup is the catalog file as it was, the catalog
    file holds the printed document of the update with the permission bits
    it had, the two counters add up to the number of products, and the
    console shows the messages of the source in their order, with a line for
    each of the first five products not found. *)
Theorem run_with_console_succeeds console csv_reader json_load json_dump
    env files table fieldnames rows f catalog products :
  (∀ m, console m = true) →
  files !! csv_path = Some table →
  csv_reader (data table) = (fieldnames :: rows, None) →
  Forall (fun row => (length fieldnames ≤ length row)%nat ∨ row = []) rows →
  files !! catalog_path = Some f →
  json_load (data f) = Ok catalog →
  well_formed catalog products →
  copy_outcome env = Done → write_outcome env = Done →
  ∃ vendor_map catalog' u n,
    load_records (fieldnames :: rows) = Ok vendor_map ∧
    update_catalog vendor_map catalog = Ok (catalog', u, n) ∧
    u + n = length products ∧
    main_print console csv_reader json_load json_dump env (World files [], []) =
      (Returned tt,
       (World (<[catalog_path := File (json_dump catalog') (mode f) (now env)]>
                 (<[backup_path env := f]> files))
              [Copy catalog_path (backup_path env) Done; Write catalog_path Done],
        [Loading; Loaded (size vendor_map); Reading; Adding]
          ++ map line_message (take 5 (missed vendor_map products))
          ++ [ResultsHeader; Updated u; NotFound n;
              BackupCreated (backup_path env); Written])).
Proof.
  intros Hconsole Hcsv Hread Hrows Hcat Hparse Hwf Hcopy Hwrite.
  destruct (load_rows_total _ ∅ (DictReader_rows_ok _ _ Hrows)) as [vendor_map Hload].
  destruct Hwf as (top & -> & Hget & Hok).
  destruct (update_products_total vendor_map products 0 0 Hok) as (products' & u & n & Hloop).
  destruct (update_products_diag_total _ _ _ _ _ _ _ Hloop) as [lines Hdiag].
  pose proof (update_products_diag_lines _ _ _ _ _ _ _ _ Hdiag) as [_ Hlines].
  simpl in Hlines. subst lines.
  exists vendor_map, (PDict (dict_set "products" (PList products') top)), u, n.
  split; [done|].
  split; [unfold update_catalog; simpl; rewrite Hget; simpl; by rewrite Hloop|].
  split.
  { apply update_products_Ok in Hloop as (_ & -> & ->). apply List.filter_length. }
  unfold main_print.
  unfold mbind at 1, cio_bind. rewrite (print_taken _ _ _ (Hconsole _)). simpl.
  unfold mbind at 1, cio_bind. unfold load_vendor_map_print.
  unfold mbind at 1, cio_bind.
  rewrite (silent_Ok _ _ vendor_map (World files []));
    [|apply (load_vendor_map_Ok _ _ _ table); simpl; by rewrite ?Hread].
  unfold mbind at 1, cio_bind. rewrite (print_taken _ _ _ (Hconsole _)). simpl.
  unfold mbind at 1, cio_bind. rewrite (print_taken _ _ _ (Hconsole _)). simpl.
  unfold mbind at 1, cio_bind.
  rewrite (silent_Ok _ _ (data f) (World files [])); [|by apply read_file_Ok].
  unfold mbind at 1, cio_bind. rewrite Hparse, silent_lift_Ok.
  unfold mbind at 1, cio_bind. rewrite (print_taken _ _ _ (Hconsole _)). simpl.
  unfold mbind at 1, cio_bind.
  rewrite (update_catalog_print_list _ _ _ _ _ Hget).
  rewrite (update_products_print_taken _ _ _ _ _ _ _ _ _ _ Hdiag)
    by (apply Forall_forall; intros; apply Hconsole).
  simpl.
  unfold mbind at 1, cio_bind. rewrite (print_taken _ _ _ (Hconsole _)). simpl.
  unfold mbind at 1, cio_bind. rewrite (print_taken _ _ _ (Hconsole _)). simpl.
  unfold mbind at 1, cio_bind. rewrite (print_taken _ _ _ (Hconsole _)). simpl.
  unfold mbind at 1, cio_bind.
  rewrite (silent_Ok _ _ tt
             (World (<[backup_path env := f]> files)
                    [Copy catalog_path (backup_path env) Done]));
    [|by apply copy2_Done].
  unfold mbind at 1, cio_bind. rewrite (print_taken _ _ _ (Hconsole _)). simpl.
  unfold mbind at 1, cio_bind.
  erewrite silent_Ok; [|by apply write_file_Done].
  rewrite (print_taken _ _ _ (Hconsole _)). simpl.
  unfold mode_at. simpl.
  rewrite lookup_insert_ne by apply backup_path_fresh. rewrite Hcat.
  by rewrite <- !app_assoc.
Qed.

Lemma run_with_console_succeeds_witness :
  ∃ vendor_map catalog' u n,
    load_records [["Handle"; "Vendor"]; ["hat-001"; "Acme"]] = Ok vendor_map ∧
    update_catalog vendor_map example_catalog = Ok (catalog', u, n) ∧
    u + n = length [PDict [("handle", PStr "Hat-001"); ("title", PStr "Red Hat")]] ∧
    main_print (fun _ => true) example_csv_reader example_json_load example_json_dump
               (example_env Done Done) (World example_fs [], []) =
      (Returned tt,
       (World (<[catalog_path := File (example_json_dump catalog')
                                      (mode (File example_json 420 1699990001))
                                      (now (example_env Done Done))]>
                 (<[backup_path (example_env Done Done) := File example_json 420 1699990001]>
                    example_fs))
              [Copy catalog_path (backup_path (example_env Done Done)) Done;
               Write catalog_path Done],
        [Loading; Loaded (size vendor_map); Reading; Adding]
          ++ map line_message
               (take 5 (missed vendor_map
                          [PDict [("handle", PStr "Hat-001"); ("title", PStr "Red Hat")]]))
          ++ [ResultsHeader; Updated u; NotFound n;
              BackupCreated (backup_path (example_env Done Done)); Written])).
Proof.
  apply (run_with_console_succeeds (fun _ => true)
           example_csv_reader example_json_load example_json_dump
           (example_env Done Done) example_fs (File example_csv 420 1699990000)).
  - reflexivity.
  - reflexivity.
  - vm_compute. reflexivity.
  - repeat constructor; simpl; lia.
  - reflexivity.
  - vm_compute. reflexivity.
  - eexists. split; [reflexivity|]. split; [reflexivity|].
    constructor; [|constructor]. eexists. split; [reflexivity|]. right. eexists. reflexivity.
  - reflexivity.
  - reflexivity.
Defined.

(** The messages of the example run. *)
Example console_of_the_scenario :
  (main_print (fun _ => true) example_csv_reader example_json_load example_json_dump
              (example_env Done Done) (World example_fs [], [])).2.2
  = [Loading; Loaded 1; Reading; Adding; ResultsHeader; Updated 1; NotFound 0;
     BackupCreated "valid_image_catalog.json.backup-1700000000"; Written].
Proof. vm_compute. reflexivity. Qed.

(** A console that refuses the line of a product: with an empty vendor file
    the one product is not found, its line is refused, and the run ends
    there with UnicodeEncodeError, before any copy or write. *)
Example refused_line_ends_the_run :
  main_print (fun m => match m with NoVendor _ _ => false | _ => true end)
             example_csv_reader example_json_load example_json_dump
             (example_env Done Done)
             (World {[ csv_path := File [] 420 1699990000;
                       catalog_path := File example_json 420 1699990001 ]} [], [])
  = (Raised (UnicodeEncodeError (NoVendor (PStr "Red Hat") "hat-001")),
     (World {[ csv_path := File [] 420 1699990000;
               catalog_path := File example_json 420 1699990001 ]} [],
      [Loading; Loaded 0; Reading; Adding])).
Proof. vm_compute. reflexivity. Qed.
